(** * Snakes of prj.textwarp: a shallow embedding of [plugins/snake.py]

    The Python module defines two classes.  [Snake] owns a body (a list of
    integer positions, head first), a target [length], a count of [rattles]
    and a move timer.  [SnakePlugin] owns the list of live snakes, moves
    them, resolves head-on-body collisions through [Snake.bite] and spawns
    new snakes near plants.

    Mutable objects are modelled by explicit state passing in a small
    state-and-exception monad: a Python exception leaves the mutations made
    before it in place, so a raised outcome carries the state too.  The
    snake objects live in the plugin's list and are addressed by their index
    in it, which is how two references to one snake are told apart from
    references to two snakes.

    Python integers are [Z].  Durations ([dt], the timers) are floats in the
    program and rationals here; the methods only subtract them and test the
    sign, and no result below depends on more.  The [random] module is an
    arbitrary tape of draws, so every theorem holds for every sequence of
    random choices.  [render] only reads the snakes and is left out. *)

From Stdlib Require Import ZArith QArith Lia.
From stdpp Require Import base list strings gmap pretty.

Open Scope Z_scope.

(** ** Outcomes and the monad *)

Inductive exn : Type := IndexError.

Inductive outcome (S A : Type) : Type :=
| Ret (a : A) (s : S)
| Raise (e : exn) (s : S).
Arguments Ret {S A} a s.
Arguments Raise {S A} e s.

Definition M (S A : Type) : Type := S -> outcome S A.

Definition final_state {S A} (o : outcome S A) : S :=
  match o with Ret _ s => s | Raise _ s => s end.

Definition ret {S A} (a : A) : M S A := fun s => Ret a s.

Definition raise {S A} (e : exn) : M S A := fun s => Raise e s.

Definition bind {S A B} (m : M S A) (k : A -> M S B) : M S B :=
  fun s => match m s with
           | Ret a s' => k a s'
           | Raise e s' => Raise e s'
           end.

Definition get {S} : M S S := fun s => Ret s s.

Definition modify {S} (f : S -> S) : M S unit := fun s => Ret tt (f s).

(** [zoom] runs an action on a part of the state and writes the part back,
    also when the action raised. *)
Definition zoom {S T A} (view : S -> T) (update : T -> S -> S) (m : M T A) : M S A :=
  fun s => match m (view s) with
           | Ret a t => Ret a (update t s)
           | Raise e t => Raise e (update t s)
           end.

Notation "x <~ m ; k" := (bind m (fun x => k))
  (at level 20, m at level 100, k at level 200, only parsing).
Notation "m >> k" := (bind m (fun _ => k))
  (at level 100, k at level 200, right associativity, only parsing).

(** A [for] loop over a list whose iterations each report a list of events;
    the events are collected in order. *)
Fixpoint for_ {S X E} (xs : list X) (f : X -> M S (list E)) : M S (list E) :=
  match xs with
  | [] => ret []
  | x :: xs' => es <~ f x ; es' <~ for_ xs' f ; ret (es ++ es')
  end.

(** A [for] loop run for its effects only. *)
Fixpoint foreach {S X} (xs : list X) (f : X -> M S unit) : M S unit :=
  match xs with
  | [] => ret tt
  | x :: xs' => f x >> foreach xs' f
  end.

(** ** Python lists *)

(** [len(l)] *)
Definition len {A} (l : list A) : Z := Z.of_nat (length l).

(** [l[0]]: raises [IndexError] on the empty list. *)
Definition py_head {A} (l : list A) : option A := l !! 0%nat.

(** [l.pop()]: removes the last element; [IndexError] on the empty list. *)
Definition py_pop {A} (l : list A) : option (list A) :=
  match l with
  | [] => None
  | _ => Some (removelast l)
  end.

(** [l.pop(i)] for [i >= 0]: [IndexError] when [i] is out of range. *)
Definition py_pop_at {A} (i : nat) (l : list A) : option (list A) :=
  if decide (i < length l)%nat then Some (delete i l) else None.

(** [chr(n)] for a code point below 128. *)
Definition chr (n : Z) : string :=
  String (Ascii.ascii_of_N (Z.to_N n)) EmptyString.

(** ** The random module

    The generator is an arbitrary tape of raw draws and a cursor.
    [random.random()] is [k / 2^53] for a 53-bit [k]; [random.choice] and
    [random.randint] reduce a draw modulo the size of the range. *)

Record Rng : Type := { tape : nat -> N; cursor : nat }.

Definition rng_next (r : Rng) : Rng :=
  {| tape := tape r; cursor := Datatypes.S (cursor r) |}.

(** ** The game object

    The game is not part of [snake.py].  The numeric type of its world
    origin, the rounding [int(round(.))], and [hashlib.md5(.).hexdigest()]
    are taken as an interface. *)

Class Host : Type := {
  num : Type;
  num_add : num -> Z -> num;
  py_round : num -> Z;
  md5_hexdigest : string -> string
}.

Definition Position : Type := Z * Z.

(** Modelled from the spec: [save_spaces] is a method of the game, absent
    from the sources; the spec describes it as a request for a durable save
    of the store, made once per consumed egg.  The model counts the requests
    in [saves]. *)
Record Game `{Host} : Type := {
  world_x : num;
  world_y : num;
  spaces : gmap string (Z * Z);
  saves : nat;
  message : string;
  message_timeout : Q
}.

Module Snake.
Record t : Type := mk {
  x : Z;
  y : Z;
  length : Z;
  max_length : Z;
  body : list Position;
  direction : Z * Z;
  time_to_move : Q;
  move_interval : Q;
  rattles : Z
}.

Definition set_length (v : Z) (s : t) : t :=
  mk (x s) (y s) v (max_length s) (body s) (direction s)
     (time_to_move s) (move_interval s) (rattles s).
Definition set_body (v : list Position) (s : t) : t :=
  mk (x s) (y s) (length s) (max_length s) v (direction s)
     (time_to_move s) (move_interval s) (rattles s).
Definition set_direction (v : Z * Z) (s : t) : t :=
  mk (x s) (y s) (length s) (max_length s) (body s) v
     (time_to_move s) (move_interval s) (rattles s).
Definition set_time_to_move (v : Q) (s : t) : t :=
  mk (x s) (y s) (length s) (max_length s) (body s) (direction s)
     v (move_interval s) (rattles s).
Definition set_rattles (v : Z) (s : t) : t :=
  mk (x s) (y s) (length s) (max_length s) (body s) (direction s)
     (time_to_move s) (move_interval s) v.
End Snake.

Module SnakePlugin.
Record t : Type := mk {
  active : bool;
  snakes : list Snake.t;
  spawn_timer : Q;
  spawn_interval : Q;
  max_snakes : Z
}.

Definition set_snakes (v : list Snake.t) (p : t) : t :=
  mk (active p) v (spawn_timer p) (spawn_interval p) (max_snakes p).
Definition set_spawn_timer (v : Q) (p : t) : t :=
  mk (active p) (snakes p) v (spawn_interval p) (max_snakes p).
End SnakePlugin.

Section Program.
Context `{Host}.

(** What every method can reach besides its own object: the shared game
    and the state of the random module. *)
Record Env : Type := { game : Game; rng : Rng }.

Definition set_game (g : Game) (e : Env) : Env := {| game := g; rng := rng e |}.
Definition set_rng (r : Rng) (e : Env) : Env := {| game := game e; rng := r |}.

(** *** random *)

Definition draw : M Env N :=
  e <~ get ;
  modify (set_rng (rng_next (rng e))) >>
  ret (tape (rng e) (cursor (rng e))).

(** [random.random()].  The test [random.random() < 0.3] of the program
    compares with the float [0.3], which lies between [2702159776422297 / 2^53]
    and the next multiple of [2^-53], as does the rational [3 / 10]: on the
    values [k / 2^53] the two tests agree. *)
Definition random_random : M Env Q :=
  k <~ draw ; ret (Z.of_N (k mod 2 ^ 53) # 2 ^ 53)%Q.

(** [random.choice(seq)] raises [IndexError] on an empty sequence. *)
Definition random_choice {A} (seq : list A) : M Env A :=
  match seq with
  | [] => raise IndexError
  | _ =>
      k <~ draw ;
      match seq !! N.to_nat (k mod N.of_nat (length seq)) with
      | Some a => ret a
      | None => raise IndexError
      end
  end.

Definition random_randint (a b : Z) : M Env Z :=
  k <~ draw ; ret (a + Z.of_N k mod (b - a + 1)).

Definition directions : list (Z * Z) := [(0, -1); (1, 0); (0, 1); (-1, 0)].

(** [(int_world_x + int_world_y * 1000) % 127] *)
Definition location_id (int_world_x int_world_y : Z) : Z :=
  (int_world_x + int_world_y * 1000) mod 127.

(** *** class Snake *)

(** [Snake.__init__(self, game, x, y)]; the reference to the game is the
    [Env] every method runs in. *)
Definition Snake_init (x y : Z) : M Env Snake.t :=
  d <~ random_choice directions ;
  ret {| Snake.x := x; Snake.y := y;
         Snake.length := 3;
         Snake.max_length := 15;
         Snake.body := [(x, y)];
         Snake.direction := d;
         Snake.time_to_move := 0;
         Snake.move_interval := 1 # 2;
         Snake.rattles := 0 |}.

(** State of a method that only touches [self]. *)
Definition on_self (f : Snake.t -> Snake.t) : M (Snake.t * Env) unit :=
  modify (fun st => (f st.1, st.2)).
Definition self : M (Snake.t * Env) Snake.t := st <~ get ; ret st.1.
Definition in_env {O A} (m : M Env A) : M (O * Env) A :=
  zoom snd (fun e st => (st.1, e)) m.

(** [while len(self.body) > self.length + self.rattles: self.body.pop()];
    [fuel] bounds the number of iterations. *)
Fixpoint trim_tail (fuel : nat) : M (Snake.t * Env) unit :=
  match fuel with
  | O => ret tt
  | Datatypes.S n =>
      s <~ self ;
      if len (Snake.body s) >? Snake.length s + Snake.rattles s then
        match py_pop (Snake.body s) with
        | Some b => on_self (Snake.set_body b) >> trim_tail n
        | None => raise IndexError
        end
      else ret tt
  end.

(** The egg branch of [Snake.update]. *)
Definition eat_egg (int_world_x int_world_y : Z) : M (Snake.t * Env) unit :=
  s <~ self ;
  (if Snake.length s <? Snake.max_length s
   then on_self (Snake.set_length (Snake.length s + 1))
   else ret tt) >>
  let space_key :=
    md5_hexdigest (pretty int_world_x +:+ "," +:+ pretty int_world_y) in
  in_env (modify (fun e =>
    set_game {| world_x := world_x (game e);
                world_y := world_y (game e);
                spaces := <[space_key := (int_world_x, int_world_y)]> (spaces (game e));
                saves := Datatypes.S (saves (game e));
                message := message (game e);
                message_timeout := message_timeout (game e) |} e)).

(** [if random.random() < 0.3: self.direction = random.choice(...)] *)
Definition maybe_turn : M (Snake.t * Env) unit :=
  r <~ in_env random_random ;
  if negb (Qle_bool (3 # 10) r)
  then d <~ in_env (random_choice directions) ; on_self (Snake.set_direction d)
  else ret tt.

(** From [head_x, head_y = self.body[0]] to the end of the trim loop. *)
Definition advance : M (Snake.t * Env) unit :=
  s <~ self ;
  match py_head (Snake.body s) with
  | None => raise IndexError
  | Some (head_x, head_y) =>
      let '(dx, dy) := Snake.direction s in
      let new_head := (head_x + dx, head_y + dy) in
      e <~ in_env get ;
      let int_world_x := py_round (num_add (world_x (game e)) new_head.1) in
      let int_world_y := py_round (num_add (world_y (game e)) new_head.2) in
      (if String.eqb (chr (location_id int_world_x int_world_y)) "0"
       then eat_egg int_world_x int_world_y
       else ret tt) >>
      on_self (fun s => Snake.set_body (new_head :: Snake.body s) s) >>
      s <~ self ;
      trim_tail (Datatypes.S (length (Snake.body s)))
  end.

(** The part of [Snake.update] under [if self.time_to_move <= 0]. *)
Definition move : M (Snake.t * Env) unit :=
  s <~ self ;
  on_self (Snake.set_time_to_move (Snake.move_interval s)) >>
  maybe_turn >>
  advance.

(** [Snake.update(self, dt)] *)
Definition Snake_update (dt : Q) : M (Snake.t * Env) unit :=
  on_self (fun s => Snake.set_time_to_move (Snake.time_to_move s - dt)%Q s) >>
  s <~ self ;
  if Qle_bool (Snake.time_to_move s) 0 then move else ret tt.

(** [len(other_snake.body) // 2] *)
Definition middle_index (body : list Position) : nat := (length body / 2)%nat.

Definition set_message (text : string) (timeout : Q) (e : Env) : Env :=
  set_game {| world_x := world_x (game e);
              world_y := world_y (game e);
              spaces := spaces (game e);
              saves := saves (game e);
              message := text;
              message_timeout := timeout |} e.

(** [Snake.bite(self, other_snake)].  The two snakes are references into
    the list of snake objects, so [self] and [other] may be the same
    object.  A reference outside the list does not occur in the program;
    the model leaves the store alone there. *)
Definition Snake_bite (self other : nat) : M (list Snake.t * Env) bool :=
  modify (fun st =>
    (alter (fun a => Snake.set_rattles (Snake.rattles a + 2) a) self st.1, st.2)) >>
  st <~ get ;
  match st.1 !! other with
  | None => ret false
  | Some other_snake =>
      if len (Snake.body other_snake) >? 3 then
        match py_pop_at (middle_index (Snake.body other_snake))
                        (Snake.body other_snake) with
        | None => raise IndexError
        | Some b =>
            modify (fun st => (alter (Snake.set_body b) other st.1, st.2)) >>
            modify (fun st =>
              (alter (fun o => Snake.set_length (Snake.length o - 1) o) other st.1,
               st.2)) >>
            in_env (modify (set_message
              "Snake bite! One snake lost a segment, another gained rattles." 2)) >>
            ret true
        end
      else ret false
  end.

(** *** class SnakePlugin *)

(** Run a method of the snake at index [i] of the list. *)
Definition in_snake {A} (i : nat) (dflt : A) (m : M (Snake.t * Env) A)
  : M (list Snake.t * Env) A :=
  st <~ get ;
  match st.1 !! i with
  | None => ret dflt
  | Some s => zoom (fun st => (s, st.2)) (fun t st => (<[i := t.1]> st.1, t.2)) m
  end.

(** Run an action on [self.snakes]. *)
Definition in_snakes {A} (m : M (list Snake.t * Env) A) : M (SnakePlugin.t * Env) A :=
  zoom (fun st => (SnakePlugin.snakes st.1, st.2))
       (fun t st => (SnakePlugin.set_snakes t.1 st.1, t.2)) m.

Definition on_plugin (f : SnakePlugin.t -> SnakePlugin.t) : M (SnakePlugin.t * Env) unit :=
  modify (fun st => (f st.1, st.2)).

(** A call of [bite] made by the collision pass: attacker, target, and
    what the call returned. *)
Definition BiteEvent : Type := nat * nat * bool.

(** [for k, segment in enumerate(snake2.body[1:], 1)] with its [break]. *)
Fixpoint scan_segments (i j : nat) (head1 : Position) (segments : list Position)
  : M (list Snake.t * Env) (list BiteEvent) :=
  match segments with
  | [] => ret []
  | segment :: rest =>
      if decide (head1 = segment)
      then b <~ Snake_bite i j ; ret [(i, j, b)]
      else scan_segments i j head1 rest
  end.

(** The body of [for j, snake2 in enumerate(self.snakes)], for the
    attacker [i] whose head was read as [head1]. *)
Definition collide_pair (i : nat) (head1 : Position) (j : nat)
  : M (list Snake.t * Env) (list BiteEvent) :=
  st <~ get ;
  match st.1 !! j with
  | None => ret []
  | Some snake2 =>
      if (i =? j)%nat || (len (Snake.body snake2) <? 2) then ret []
      else scan_segments i j head1 (drop 1 (Snake.body snake2))
  end.

(** The body of [for i, snake1 in enumerate(self.snakes)]; [n] is the
    number of snakes. *)
Definition collide_from (n i : nat) : M (list Snake.t * Env) (list BiteEvent) :=
  st <~ get ;
  match st.1 !! i with
  | None => ret []
  | Some snake1 =>
      if len (Snake.body snake1) =? 0 then ret []
      else
        match py_head (Snake.body snake1) with
        | None => raise IndexError
        | Some head1 => for_ (seq 0 n) (collide_pair i head1)
        end
  end.

(** [SnakePlugin.check_snake_collisions(self)].  The Python method returns
    nothing; the model returns the calls of [bite] it made, in order. *)
Definition check_snake_collisions : M (SnakePlugin.t * Env) (list BiteEvent) :=
  in_snakes (
    st <~ get ;
    for_ (seq 0 (length st.1)) (collide_from (length st.1))).

(** [for _ in range(10)] of [try_spawn_snake], with [trials] iterations
    left. *)
Fixpoint spawn_trials (trials : nat) : M (SnakePlugin.t * Env) bool :=
  match trials with
  | O => ret false
  | Datatypes.S n =>
      offset_x <~ in_env (random_randint (-10) 10) ;
      offset_y <~ in_env (random_randint (-10) 10) ;
      e <~ in_env get ;
      let int_world_x := py_round (num_add (world_x (game e)) offset_x) in
      let int_world_y := py_round (num_add (world_y (game e)) offset_y) in
      if String.eqb (chr (location_id int_world_x int_world_y)) "@" then
        snake <~ in_env (Snake_init offset_x offset_y) ;
        on_plugin (fun p => SnakePlugin.set_snakes (SnakePlugin.snakes p ++ [snake]) p) >>
        ret true
      else spawn_trials n
  end.

(** [SnakePlugin.try_spawn_snake(self)] *)
Definition try_spawn_snake : M (SnakePlugin.t * Env) bool :=
  st <~ get ;
  if len (SnakePlugin.snakes st.1) >=? SnakePlugin.max_snakes st.1 then ret false
  else spawn_trials 10.

(** [SnakePlugin.update(self, dt)] *)
Definition SnakePlugin_update (dt : Q) : M (SnakePlugin.t * Env) unit :=
  st <~ get ;
  if negb (SnakePlugin.active st.1) then ret tt
  else
    in_snakes (foreach (seq 0 (length (SnakePlugin.snakes st.1)))
                       (fun i => in_snake i tt (Snake_update dt))) >>
    check_snake_collisions >>
    on_plugin (fun p => SnakePlugin.set_spawn_timer (SnakePlugin.spawn_timer p - dt)%Q p) >>
    st <~ get ;
    if Qle_bool (SnakePlugin.spawn_timer st.1) 0 then
      on_plugin (fun p => SnakePlugin.set_spawn_timer (SnakePlugin.spawn_interval p) p) >>
      try_spawn_snake >>
      ret tt
    else ret tt.

End Program.

(** A host whose world origin is a pair of integers: adding an offset is
    integer addition and rounding does nothing. *)
Definition int_host (md5 : string -> string) : Host :=
  {| num := Z; num_add := Z.add; py_round := fun n => n; md5_hexdigest := md5 |}.

(** ** Invariants of actions *)

(** [m] keeps [P]: from a state in [P] it ends in [P], whether it returns
    or raises. *)
Definition preserves {S A} (P : S -> Prop) (m : M S A) : Prop :=
  forall s, P s -> P (final_state (m s)).

(** The store of snake objects holds [n] snakes. *)
Definition population `{Host} (n : nat) (st : list Snake.t * Env) : Prop :=
  length st.1 = n.

(** ** The spawn trials, read off the tape *)

(** The offsets the [k]-th trial of a spawn attempt draws when the attempt
    starts with random state [r]: two [randint(-10, 10)] per trial. *)
Definition trial_offset (r : Rng) (k : nat) : Z * Z :=
  (-10 + Z.of_N (tape r (2 * k + cursor r)%nat) mod 21,
   -10 + Z.of_N (tape r (2 * k + 1 + cursor r)%nat) mod 21).

(** [chr(location_id) == '@'] at the world coordinate of a local offset. *)
Definition is_plant `{Host} (g : Game) (offset : Z * Z) : bool :=
  String.eqb
    (chr ((py_round (num_add (world_x g) offset.1) +
           py_round (num_add (world_y g) offset.2) * 1000) mod 127)) "@".

(** The random state after [n] more draws. *)
Definition rng_skip (n : nat) (r : Rng) : Rng :=
  {| tape := tape r; cursor := (n + cursor r)%nat |}.

(** The population invariant of the plugin, with the cap the constructor
    sets. *)
Definition capped `{Host} (st : SnakePlugin.t * Env) : Prop :=
  len (SnakePlugin.snakes st.1) <= 5 /\ SnakePlugin.max_snakes st.1 = 5.

(** ** Names for the pieces of [bite] *)

Definition bite_text : string :=
  "Snake bite! One snake lost a segment, another gained rattles.".

(** [self.rattles += 2] *)
Definition add_rattles (a : Snake.t) : Snake.t :=
  Snake.set_rattles (Snake.rattles a + 2) a.

(** [other_snake.length -= 1] *)
Definition lose_length (o : Snake.t) : Snake.t :=
  Snake.set_length (Snake.length o - 1) o.

(** ** The collision pass seen through the bodies *)

Definition bodies (l : list Snake.t) : list (list Position) := Snake.body <$> l.

(** What holds throughout a collision pass that starts with the bodies
    [bs0], for two snakes at [a] and [b] with bodies [bA] and [bB]: every
    snake keeps its head and loses segments at most; and the body of [a]
    (of [b]) is the initial one unless [b] (unless [a]) has bitten it with
    success. *)
Definition pass_inv (bs0 : list (list Position)) (a b : nat) (bA bB : list Position)
    (log : list BiteEvent) (bs : list (list Position)) : Prop :=
  (forall k c0, bs0 !! k = Some c0 ->
     exists c, bs !! k = Some c /\ py_head c = py_head c0 /\ drop 1 c ⊆ drop 1 c0) /\
  (bs !! a = Some bA \/ (b, a, true) ∈ log) /\
  (bs !! b = Some bB \/ (a, b, true) ∈ log).

(** ** Concrete objects for the examples *)

Module Fixtures.
(** No example consults the digest of a key, so any function serves. *)
#[export] Instance host : Host := int_host (fun key => key).

Definition empty_game : Game :=
  {| world_x := 0; world_y := 0; spaces := ∅; saves := 0%nat;
     message := ""; message_timeout := 0 |}.

(** A tape that yields the same raw draw forever.  The draw [2^52] makes
    [random.random()] return one half (no change of direction), and
    selects [directions[0]] and the offset [-10 + 2^52 mod 21 = 6]. *)
Definition constant_rng (k : N) : Rng := {| tape := fun _ => k; cursor := 0%nat |}.

Definition calm_env : Env := {| game := empty_game; rng := constant_rng (2 ^ 52) |}.

(** A snake with the given body, [length] and rattles, at rest. *)
Definition snake_of (body : list Position) (length rattles : Z) : Snake.t :=
  Snake.mk 0 0 length 15 body (0, -1) (1 # 2) (1 # 2) rattles.

(** The biter and the five-segment target of the spec's bite scenario:
    the biter's head (2, 2) is the target's segment 2. *)
Definition biter : Snake.t := snake_of [(2, 2); (2, 3); (2, 4)] 3 0.
Definition target5 : Snake.t :=
  snake_of [(0, 2); (1, 2); (2, 2); (3, 2); (4, 2)] 3 2.
Definition target3 : Snake.t := snake_of [(1, 2); (2, 2); (3, 2)] 3 0.

(** Three snakes on the grid.  [west] has its head (0, 0) on the last
    segment of [hook], and [hook] has its head (2, 0) on segment 2 of
    [west]; the young [pup] has its head (1, 0) on segment 1 of [west]. *)
Definition west : Snake.t := snake_of [(0, 0); (1, 0); (2, 0); (3, 0)] 4 0.
Definition hook : Snake.t := snake_of [(2, 0); (2, 1); (1, 1); (0, 1); (0, 0)] 3 2.
Definition pup : Snake.t := snake_of [(1, 0); (1, -1)] 3 0.
Definition bystander : Snake.t := snake_of [(9, 9); (9, 10)] 3 0.

Definition plugin_of (active : bool) (snakes : list Snake.t) : SnakePlugin.t :=
  SnakePlugin.mk active snakes 0 10 5.

(** [pup] comes first in the list and bites [west] before the other two
    get their turn. *)
Definition crowded : SnakePlugin.t := plugin_of true [pup; west; hook].
Definition duel : SnakePlugin.t := plugin_of true [west; hook; bystander].
Definition full_house : SnakePlugin.t :=
  plugin_of true [west; hook; pup; bystander; biter].
Definition asleep : SnakePlugin.t := plugin_of false [west; hook].

(** A tape on which the first spawn trial draws the offsets (0, -4); the
    world cell (0, -4) holds a plant: [(0 - 4000) % 127 = 64 = ord('@')]. *)
Definition plant_env : Env :=
  {| game := empty_game;
     rng := {| tape := fun n => if Nat.even n then 10%N else 6%N; cursor := 0%nat |} |}.

(** What [Snake(game, 5, 5)] builds when [random.choice] picks [(0, -1)]. *)
Definition fresh_snake : Snake.t :=
  Snake.mk 5 5 3 15 [(5, 5)] (0, -1) 0 (1 # 2) 0.

(** The snake of the spec's movement scenario. *)
Definition grown_snake : Snake.t :=
  Snake.mk 5 5 3 15 [(5, 5); (5, 6); (5, 7)] (0, -1) 0 (1 # 2) 0.

(** A snake at the cap whose next cell, world coordinate (48, 0), holds an
    egg: [(48 + 0 * 1000) % 127 = 48 = ord('0')]. *)
Definition capped_snake : Snake.t :=
  Snake.mk 48 1 15 15 [(48, 1); (48, 2)] (0, -1) 0 (1 # 2) 0.
End Fixtures.

(** ** Rendering and construction of the plugin *)

(** [try: m except: pass] *)
Definition try_pass {S A} (m : M S A) : M S unit :=
  fun s => Ret tt (final_state (m s)).

(** [enumerate(l, k)] *)
Fixpoint enumerate_from {A} (k : nat) (l : list A) : list (nat * A) :=
  match l with
  | [] => []
  | a :: l' => (k, a) :: enumerate_from (Datatypes.S k) l'
  end.

(** The [curses] module and the screen object are not part of [snake.py]:
    [addstr] may change the screen and may raise, [color_pair] and [A_BOLD]
    are integers. *)
Class Curses : Type := {
  screen : Type;
  addstr : Z -> Z -> string -> Z -> M screen unit;
  color_pair : Z -> Z;
  A_BOLD : Z
}.

(** The fields of the game that [render] reads. *)
Record View : Type := { max_x : Z; max_y : Z; snake_color : Z }.

Section Render.
Context `{Curses}.

(** The body of the loop of [Snake.render] for segment [i] at [(x, y)]. *)
Definition render_segment (s : Snake.t) (v : View) (i : nat) (segment : Position)
  : M screen unit :=
  let '(x, y) := segment in
  let screen_x := x + max_x v / 2 in
  let screen_y := y + max_y v / 2 in
  if (0 <=? screen_x) && (screen_x <? max_x v) &&
     (0 <=? screen_y) && (screen_y <? max_y v) then
    let '(char, color) :=
      if (i =? 0)%nat then ("S"%string, snake_color v)
      else if Z.of_nat i >=? Snake.length s then ("."%string, color_pair 1)
      else ("s"%string, snake_color v) in
    let attr := if Snake.length s >=? Snake.max_length s then A_BOLD else 0 in
    try_pass (addstr screen_y screen_x char (Z.lor color attr))
  else ret tt.

(** [Snake.render(self, screen)] *)
Definition Snake_render (s : Snake.t) (v : View) : M screen unit :=
  foreach (enumerate_from 0 (Snake.body s))
          (fun '(i, segment) => render_segment s v i segment).


End Render.

(** [SnakePlugin.__init__(self, game)].  The flag [active] is set by the
    base class [Plugin], which is not in the sources; it is a parameter. *)
Definition SnakePlugin_init (active : bool) : SnakePlugin.t :=
  SnakePlugin.mk active [] 0 10 5.

(** ** Vocabulary of the further properties *)

(** An action that returns from every state in [P], with a result and a
    state in [Q]. *)
Definition returns {S A} (P : S -> Prop) (m : M S A) (Q : A -> S -> Prop) : Prop :=
  forall s, P s -> exists a s', m s = Ret a s' /\ Q a s'.

(** A snake with a head whose body is within [length + rattles]. *)
Definition sound (s : Snake.t) : Prop :=
  Snake.body s <> [] /\ len (Snake.body s) <= Snake.length s + Snake.rattles s.

(** Rattles come in pairs. *)
Definition paired (s : Snake.t) : Prop :=
  0 <= Snake.rattles s /\ Z.even (Snake.rattles s) = true.

(** A screen that records the calls of [addstr] and raises on the cells
    [fails] selects, after recording the call.  [render] catches every
    exception alike, so the one raised here stands for [curses.error]. *)
Definition recorder (fails : Z -> Z -> bool) : Curses :=
  {| screen := list (Z * Z * string * Z);
     addstr := fun y x text attr log =>
       if fails y x then Raise IndexError (log ++ [(y, x, text, attr)])
       else Ret tt (log ++ [(y, x, text, attr)]);
     color_pair := fun n => n * 256;
     A_BOLD := 2097152 |}.

(** The cell a snake looks at when it moves, in world coordinates. *)
Definition world_cell `{Host} (g : Game) (cell : Position) : Z * Z :=
  (py_round (num_add (world_x g) cell.1), py_round (num_add (world_y g) cell.2)).

(** [chr(location_id) == '0'] at a world cell. *)
Definition is_egg (w : Z * Z) : bool :=
  String.eqb (chr ((w.1 + w.2 * 1000) mod 127)) "0".

(** The key [update] files a consumed egg under. *)
Definition space_key `{Host} (w : Z * Z) : string :=
  md5_hexdigest (pretty w.1 +:+ "," +:+ pretty w.2).

(** The game after the egg at world cell [w] has been consumed. *)
Definition claim_egg `{Host} (w : Z * Z) (g : Game) : Game :=
  {| world_x := world_x g;
     world_y := world_y g;
     spaces := <[space_key w := w]> (spaces g);
     saves := Datatypes.S (saves g);
     message := message g;
     message_timeout := message_timeout g |}.


(** One step of a snake: from [hd] in direction [d]. *)
Definition step_from (hd : Position) (d : Z * Z) : Position :=
  (hd.1 + d.1, hd.2 + d.2).

(** [s] is what bites can make of [s0]: the same head, a body that lost
    segments but not below three, a length that went down by as much,
    rattles that did not go down, and the rest as it was. *)
Definition bitten (s0 s : Snake.t) : Prop :=
  py_head (Snake.body s) = py_head (Snake.body s0) /\
  Snake.body s `sublist_of` Snake.body s0 /\
  Z.min 3 (len (Snake.body s0)) <= len (Snake.body s) /\
  Snake.rattles s0 <= Snake.rattles s /\
  len (Snake.body s0) - len (Snake.body s) = Snake.length s0 - Snake.length s /\
  Snake.x s = Snake.x s0 /\ Snake.y s = Snake.y s0 /\
  Snake.max_length s = Snake.max_length s0 /\
  Snake.direction s = Snake.direction s0 /\
  Snake.time_to_move s = Snake.time_to_move s0 /\
  Snake.move_interval s = Snake.move_interval s0.

(** What a bite leaves of the environment: all but the message. *)
Definition same_world `{Host} (e0 e : Env) : Prop :=
  rng e = rng e0 /\
  world_x (game e) = world_x (game e0) /\ world_y (game e) = world_y (game e0) /\
  spaces (game e) = spaces (game e0) /\ saves (game e) = saves (game e0).

(** Sum of a quantity over the snakes. *)
Definition total (f : Snake.t -> Z) (l : list Snake.t) : Z :=
  foldr (fun s acc => f s + acc) 0 l.

(** The successful bites among the events of a pass. *)
Definition successes (log : list BiteEvent) : Z :=
  len (filter (fun ev : BiteEvent => ev.2 = true) log).

(** What holds of every snake the program builds or keeps. *)
Definition well_formed (s : Snake.t) : Prop :=
  sound s /\ paired s /\
  Snake.max_length s = 15 /\ Snake.length s <= 15 /\
  Snake.direction s ∈ [(0, -1); (1, 0); (0, 1); (-1, 0)] /\
  Snake.move_interval s = (1 # 2)%Q.

(** An event of a collision pass over [n] snakes: two different snakes of
    the list. *)
Definition pair_event (n : nat) (ev : BiteEvent) : Prop :=
  ev.1.1 <> ev.1.2 /\ (ev.1.1 < n)%nat /\ (ev.1.2 < n)%nat.

(** The books of a pass that started with [R] rattles, [B] segments and
    lengths summing to [L]: two rattles per bite, one segment and one unit of
    length per successful bite. *)
Definition books `{Host} (R B L : Z) (n : nat) (log : list BiteEvent)
    (st : list Snake.t * Env) : Prop :=
  length st.1 = n /\
  total Snake.rattles st.1 = R + 2 * len log /\
  total (fun s => len (Snake.body s)) st.1 = B - successes log /\
  total Snake.length st.1 = L - successes log.

(** A snake as [Snake.__init__] leaves it. *)
Definition hatchling (s : Snake.t) : Prop :=
  Snake.body s = [(Snake.x s, Snake.y s)] /\
  Snake.length s = 3 /\ Snake.rattles s = 0 /\ Snake.max_length s = 15 /\
  Snake.direction s ∈ [(0, -1); (1, 0); (0, 1); (-1, 0)] /\
  Snake.time_to_move s = 0%Q /\ Snake.move_interval s = (1 # 2)%Q.

(** [addstr(y, x, text, attr)] draws a segment of [s] in the view [v]: the
    segment at some index [i] of the body, at its screen cell inside the
    view, as the head ([S], index 0), a rattle ([.] in [color_pair(1)], index
    [length] and beyond) or a body segment ([s]), bold when the snake is at
    its cap. *)
Definition draws `{Curses} (s : Snake.t) (v : View) (y x : Z) (text : string)
    (attr : Z) : Prop :=
  exists (i : nat) (segment : Position) (color : Z),
    Snake.body s !! i = Some segment /\
    x = segment.1 + max_x v / 2 /\ y = segment.2 + max_y v / 2 /\
    0 <= x < max_x v /\ 0 <= y < max_y v /\
    (i = 0%nat /\ text = "S"%string /\ color = snake_color v \/
     i <> 0%nat /\ Snake.length s <= Z.of_nat i /\
       text = "."%string /\ color = color_pair 1 \/
     i <> 0%nat /\ Z.of_nat i < Snake.length s /\
       text = "s"%string /\ color = snake_color v) /\
    attr = Z.lor color (if Snake.max_length s <=? Snake.length s then A_BOLD else 0).

Module Fixtures2.
Import Fixtures.

Definition view80 : View := {| max_x := 80; max_y := 24; snake_color := 512 |}.

(** A snake with its head at the top-left corner of the 80 x 24 view: the
    second segment is off the screen. *)
Definition corner_snake : Snake.t :=
  snake_of [(-40, -12); (-41, -12); (-40, -11)] 2 2.

(** A sound snake about to move. *)
Definition due_snake : Snake.t :=
  Snake.mk 5 5 3 15 [(5, 5); (5, 6); (5, 7)] (0, -1) 0 (1 # 2) 0.

Definition headless : Snake.t := Snake.mk 0 0 3 15 [] (0, -1) 0 (1 # 2) 0.

Definition starved : Snake.t :=
  Snake.mk 0 0 (-4) 15 [(5, 5); (5, 6)] (0, -1) 0 (1 # 2) 0.

End Fixtures2.

(** * Verification *)

Section Monad_facts.
Context {S : Type}.

Lemma preserves_ret {A} (P : S -> Prop) (a : A) : preserves P (ret a).
Proof. intros s Hs. exact Hs. Qed.

Lemma preserves_raise {A} (P : S -> Prop) (e : exn) : preserves P (@raise S A e).
Proof. intros s Hs. exact Hs. Qed.

Lemma preserves_get (P : S -> Prop) : preserves P get.
Proof. intros s Hs. exact Hs. Qed.

Lemma preserves_modify (P : S -> Prop) (f : S -> S) :
  (forall s, P s -> P (f s)) -> preserves P (modify f).
Proof. intros Hf s Hs. apply Hf, Hs. Qed.

Lemma preserves_bind {A B} (P : S -> Prop) (m : M S A) (k : A -> M S B) :
  preserves P m -> (forall a, preserves P (k a)) -> preserves P (bind m k).
Proof.
  intros Hm Hk s Hs. unfold bind. specialize (Hm s Hs).
  destruct (m s) as [a s'|e s']; cbn in Hm |- *.
  - apply Hk, Hm.
  - exact Hm.
Qed.

Lemma preserves_foreach {X} (P : S -> Prop) (xs : list X) (f : X -> M S unit) :
  (forall x, preserves P (f x)) -> preserves P (foreach xs f).
Proof.
  intros Hf. induction xs as [|x xs IH]; cbn [foreach].
  - apply preserves_ret.
  - apply preserves_bind; [apply Hf|intros _; exact IH].
Qed.

Lemma preserves_for {X E} (P : S -> Prop) (xs : list X) (f : X -> M S (list E)) :
  (forall x, preserves P (f x)) -> preserves P (for_ xs f).
Proof.
  intros Hf. induction xs as [|x xs IH]; cbn [for_].
  - apply preserves_ret.
  - apply preserves_bind; [apply Hf|intros es].
    apply preserves_bind; [exact IH|intros es']. apply preserves_ret.
Qed.


(** A loop over [0 .. n-1] whose iterations all return, with an invariant
    on the position, the events so far and the state. *)
Lemma for_seq_inv {E} (n : nat) (f : nat -> M S (list E))
    (Inv : nat -> list E -> S -> Prop) :
  (forall i log s, (i < n)%nat -> Inv i log s ->
     exists es s', f i s = Ret es s' /\ Inv (Datatypes.S i) (log ++ es) s') ->
  forall log0 s0, Inv 0%nat log0 s0 ->
    exists es s', for_ (seq 0 n) f s0 = Ret es s' /\ Inv n (log0 ++ es) s'.
Proof.
  intros Hstep.
  assert (Hgen : forall m k, (k + m = n)%nat -> forall log0 s0, Inv k log0 s0 ->
            exists es s', for_ (seq k m) f s0 = Ret es s' /\ Inv n (log0 ++ es) s').
  { induction m as [|m IH]; intros k Hk log0 s0 Hinv.
    - exists [], s0. split; [reflexivity|].
      rewrite app_nil_r. replace n with k by lia. exact Hinv.
    - destruct (Hstep k log0 s0 ltac:(lia) Hinv) as (es1 & s1 & Hrun1 & Hinv1).
      destruct (IH (Datatypes.S k) ltac:(lia) _ _ Hinv1) as (es2 & s2 & Hrun2 & Hinv2).
      exists (es1 ++ es2), s2. split.
      + cbn [seq for_]. unfold bind. rewrite Hrun1, Hrun2. reflexivity.
      + rewrite app_assoc. exact Hinv2. }
  intros log0 s0 Hinv. exact (Hgen n 0%nat eq_refl log0 s0 Hinv).
Qed.

End Monad_facts.

Section Snake_facts.
Context `{Host}.

Lemma len_nonneg {A} (l : list A) : 0 <= len l.
Proof. unfold len. lia. Qed.

Lemma removelast_take {A} (l : list A) : removelast l = take (length l - 1) l.
Proof.
  induction l as [|a l IH]; [reflexivity|].
  destruct l as [|b l]; [reflexivity|].
  change (removelast (a :: b :: l)) with (a :: removelast (b :: l)).
  rewrite IH. cbn [length].
  replace (Datatypes.S (Datatypes.S (length l)) - 1)%nat
    with (Datatypes.S (Datatypes.S (length l) - 1)) by lia.
  reflexivity.
Qed.

(** The trim loop in closed form: with a target that is not negative the
    body is cut to its first [target] segments; with a negative target the
    loop empties the body and then pops from the empty list. *)
Lemma trim_tail_spec (fuel : nat) (s : Snake.t) (e : Env) :
  (length (Snake.body s) < fuel)%nat ->
  trim_tail fuel (s, e) =
    if 0 <=? Snake.length s + Snake.rattles s
    then Ret tt (Snake.set_body
                   (take (Z.to_nat (Snake.length s + Snake.rattles s)) (Snake.body s)) s, e)
    else Raise IndexError (Snake.set_body [] s, e).
Proof.
  revert s. induction fuel as [|n IH]; intros s Hfuel; [lia|].
  destruct s as [x y lg mx b d t mi r]. cbn in Hfuel.
  cbn -[Z.add take]. unfold bind at 1. cbn -[Z.add take].
  destruct (Z.gtb_spec (len b) (lg + r)) as [Hgt|Hle].
  - destruct b as [|p b'].
    + cbn -[Z.add take]. unfold len in Hgt. cbn in Hgt.
      destruct (Z.leb_spec 0 (lg + r)); [lia|reflexivity].
    + change (py_pop (p :: b')) with (Some (removelast (p :: b'))).
      unfold bind. cbn -[Z.add take removelast trim_tail].
      rewrite IH.
      2:{ cbn -[removelast]. rewrite removelast_take, length_take.
          cbn [length] in Hfuel |- *. lia. }
      cbn -[Z.add take removelast].
      destruct (Z.leb_spec 0 (lg + r)) as [Hnn|Hneg]; [|reflexivity].
      rewrite removelast_take, take_take.
      unfold len in Hgt. cbn [length] in Hgt |- *.
      replace (Z.to_nat (lg + r) `min` (Datatypes.S (length b') - 1))%nat
        with (Z.to_nat (lg + r)) by lia.
      reflexivity.
  - unfold ret. destruct (Z.leb_spec 0 (lg + r)) as [Hnn|Hneg].
    + rewrite take_ge; [reflexivity|]. unfold len in Hle. lia.
    + pose proof (len_nonneg b). lia.
Qed.

Lemma random_choice_directions (e : Env) :
  exists d, random_choice directions e = Ret d (set_rng (rng_next (rng e)) e).
Proof.
  unfold random_choice, directions, bind, draw, bind. cbn -[N.modulo lookup N.of_nat].
  set (k := (tape (rng e) (cursor (rng e)) `mod` N.of_nat 4)%N).
  assert (Hk : (N.to_nat k < 4)%nat).
  { pose proof (N.mod_upper_bound (tape (rng e) (cursor (rng e))) (N.of_nat 4)).
    unfold k. lia. }
  destruct (lookup_lt_is_Some_2 [(0, -1); (1, 0); (0, 1); (-1, 0)] (N.to_nat k))
    as [d Hd]; [exact Hk|].
  rewrite Hd. eauto.
Qed.

(** Resampling the direction never fails and touches nothing but the
    direction and the random tape. *)
Lemma maybe_turn_run (s : Snake.t) (e : Env) :
  exists d' r',
    maybe_turn (s, e) = Ret tt (Snake.set_direction d' s, set_rng r' e).
Proof.
  unfold maybe_turn, bind at 1. cbn -[Qle_bool directions random_choice].
  destruct (negb _).
  - unfold bind, in_env, zoom. cbn -[directions random_choice].
    destruct (random_choice_directions (set_rng (rng_next (rng e)) e)) as [d' ->].
    cbn. eauto.
  - exists (Snake.direction s), (rng_next (rng e)). destruct s. reflexivity.
Qed.

(** Eating an egg grows the snake by one below the cap and not at all at
    the cap; it records the claimed coordinate in the game. *)
Lemma eat_egg_run (s : Snake.t) (e : Env) (ix iy : Z) :
  exists lg' g',
    (lg' = Snake.length s \/
     (lg' = Snake.length s + 1 /\ Snake.length s < Snake.max_length s)) /\
    eat_egg ix iy (s, e) = Ret tt (Snake.set_length lg' s, set_game g' e).
Proof.
  unfold eat_egg, bind at 1. cbn -[Z.add Z.ltb].
  destruct (Z.ltb_spec (Snake.length s) (Snake.max_length s)) as [Hlt|Hge].
  - eexists (Snake.length s + 1), _. split; [right; split; [reflexivity|exact Hlt]|].
    reflexivity.
  - eexists (Snake.length s), _. split; [left; reflexivity|].
    destruct s. reflexivity.
Qed.

Lemma advance_empty (s : Snake.t) (e : Env) :
  Snake.body s = [] -> advance (s, e) = Raise IndexError (s, e).
Proof. intros Hb. unfold advance, bind, self. cbn. rewrite Hb. reflexivity. Qed.

(** With a head to start from, [advance] prepends the new head, possibly
    after growing by one, and then runs the trim loop. *)
Lemma advance_run (s : Snake.t) (e : Env) (hd : Position) (tl : list Position) :
  Snake.body s = hd :: tl ->
  exists lg' g',
    (lg' = Snake.length s \/
     (lg' = Snake.length s + 1 /\ Snake.length s < Snake.max_length s)) /\
    advance (s, e) =
      trim_tail (Datatypes.S (Datatypes.S (length (Snake.body s))))
        (Snake.set_body
           ((hd.1 + (Snake.direction s).1, hd.2 + (Snake.direction s).2)
              :: Snake.body s)
           (Snake.set_length lg' s), set_game g' e).
Proof.
  intros Hb. unfold advance, bind at 1. cbn -[trim_tail Z.add String.eqb chr location_id].
  rewrite Hb. destruct hd as [hx hy]. cbn -[trim_tail Z.add String.eqb chr location_id].
  destruct (Snake.direction s) as [dx dy] eqn:Hd.
  cbn -[trim_tail Z.add String.eqb chr location_id].
  unfold bind at 1.
  destruct (String.eqb _ _).
  - destruct (eat_egg_run s e
                (py_round (num_add (world_x (game e)) (hx + dx)))
                (py_round (num_add (world_y (game e)) (hy + dy))))
      as (lg' & g' & Hlg & ->).
    exists lg', g'. split; [exact Hlg|].
    cbn -[trim_tail Z.add]. rewrite Hb. reflexivity.
  - exists (Snake.length s), (game e). split; [left; reflexivity|].
    cbn -[trim_tail Z.add]. rewrite Hb.
    destruct s, e. reflexivity.
Qed.

Lemma move_run (s : Snake.t) (e : Env) :
  exists d' r',
    move (s, e) =
      advance (Snake.set_direction d' (Snake.set_time_to_move (Snake.move_interval s) s),
               set_rng r' e).
Proof.
  unfold move, bind at 1. cbn -[maybe_turn advance].
  unfold bind at 1.
  destruct (maybe_turn_run (Snake.set_time_to_move (Snake.move_interval s) s) e)
    as (d' & r' & ->).
  exists d', r'. reflexivity.
Qed.

Lemma Snake_update_idle (dt : Q) (s : Snake.t) (e : Env) :
  Qle_bool (Snake.time_to_move s - dt) 0 = false ->
  Snake_update dt (s, e) =
    Ret tt (Snake.set_time_to_move (Snake.time_to_move s - dt)%Q s, e).
Proof.
  intros Ht. unfold Snake_update, bind. cbn -[Qle_bool Qminus move].
  rewrite Ht. reflexivity.
Qed.

Lemma Snake_update_due (dt : Q) (s : Snake.t) (e : Env) :
  Qle_bool (Snake.time_to_move s - dt) 0 = true ->
  Snake_update dt (s, e) =
    move (Snake.set_time_to_move (Snake.time_to_move s - dt)%Q s, e).
Proof.
  intros Ht. unfold Snake_update, bind. cbn -[Qle_bool Qminus move].
  rewrite Ht. reflexivity.
Qed.

(** The outcome of an update that moves: a new head in front, the length
    grown by at most one, and the body cut to [length + rattles] segments;
    a negative [length + rattles] makes the trim loop pop from the empty
    list. *)
Lemma Snake_update_moved (dt : Q) (s : Snake.t) (e : Env) (hd : Position)
    (tl : list Position) :
  Qle_bool (Snake.time_to_move s - dt) 0 = true ->
  Snake.body s = hd :: tl ->
  exists d' lg' e',
    (lg' = Snake.length s \/
     (lg' = Snake.length s + 1 /\ Snake.length s < Snake.max_length s)) /\
    Snake_update dt (s, e) =
      let moved b :=
        Snake.mk (Snake.x s) (Snake.y s) lg' (Snake.max_length s) b d'
                 (Snake.move_interval s) (Snake.move_interval s) (Snake.rattles s) in
      if 0 <=? lg' + Snake.rattles s
      then Ret tt (moved (take (Z.to_nat (lg' + Snake.rattles s))
                               ((hd.1 + d'.1, hd.2 + d'.2) :: Snake.body s)), e')
      else Raise IndexError (moved [], e').
Proof.
  intros Ht Hb. rewrite (Snake_update_due _ _ _ Ht).
  destruct (move_run (Snake.set_time_to_move (Snake.time_to_move s - dt)%Q s) e)
    as (d' & r' & ->).
  edestruct advance_run as (lg' & g' & Hlg & ->); [cbn; exact Hb|].
  exists d', lg', (set_game g' (set_rng r' e)). split; [exact Hlg|].
  rewrite trim_tail_spec by (cbn; lia).
  destruct s. reflexivity.
Qed.

(** Whatever an update does, it leaves the cap and the rattles alone and
    grows the length by at most one, and only below the cap. *)
Lemma Snake_update_length (dt : Q) (s : Snake.t) (e : Env) :
  let s' := (final_state (Snake_update dt (s, e))).1 in
  Snake.max_length s' = Snake.max_length s /\
  Snake.rattles s' = Snake.rattles s /\
  (Snake.length s' = Snake.length s \/
   (Snake.length s' = Snake.length s + 1 /\ Snake.length s < Snake.max_length s)).
Proof.
  destruct (Qle_bool (Snake.time_to_move s - dt) 0) eqn:Ht.
  - destruct (Snake.body s) as [|hd tl] eqn:Hb.
    + rewrite (Snake_update_due _ _ _ Ht).
      destruct (move_run (Snake.set_time_to_move (Snake.time_to_move s - dt)%Q s) e)
        as (d' & r' & ->).
      rewrite advance_empty by (cbn; exact Hb).
      cbn. auto.
    + destruct (Snake_update_moved dt s e hd tl Ht Hb) as (d' & lg' & e' & Hlg & ->).
      cbn zeta. destruct (0 <=? _); cbn; auto.
  - rewrite (Snake_update_idle _ _ _ Ht). cbn. auto.
Qed.

(** The trim loop only ever shortens: with the body already within
    [length + rattles] it returns at once and changes nothing. *)
Lemma trim_tail_short (fuel : nat) (s : Snake.t) (e : Env) :
  len (Snake.body s) <= Snake.length s + Snake.rattles s ->
  trim_tail fuel (s, e) = Ret tt (s, e).
Proof.
  intros Hle. destruct fuel as [|n]; [reflexivity|].
  cbn -[Z.add]. unfold bind. cbn -[Z.add].
  destruct (Z.gtb_spec (len (Snake.body s)) (Snake.length s + Snake.rattles s));
    [lia|reflexivity].
Qed.

(** With enough fuel the trim loop is left through its test or through the
    failing [pop], never because the fuel ran out: when it returns, the
    loop condition is false. *)
Lemma trim_tail_exit (fuel : nat) (s s' : Snake.t) (e e' : Env) :
  (length (Snake.body s) < fuel)%nat ->
  trim_tail fuel (s, e) = Ret tt (s', e') ->
  len (Snake.body s') <= Snake.length s' + Snake.rattles s'.
Proof.
  intros Hfuel. rewrite trim_tail_spec by exact Hfuel.
  destruct (Z.leb_spec 0 (Snake.length s + Snake.rattles s)) as [Hnn|Hneg];
    [|discriminate].
  intros [= <- <-]. cbn [Snake.body Snake.length Snake.rattles Snake.set_body].
  unfold len. rewrite length_take. lia.
Qed.

(** C1, as amended.  When the cooldown has elapsed and the update returns,
    the body has [min (len(old body) + 1, length + rattles)] segments right
    after the move: never more than [length + rattles], and exactly that
    many as soon as the old body was at most one segment short of it.  The
    update does return when the snake has a head and [length + rattles] is
    not negative. *)
Theorem update_move_body_len (dt : Q) (s : Snake.t) (e : Env) :
  Qle_bool (Snake.time_to_move s - dt) 0 = true ->
  (forall s' e',
     Snake_update dt (s, e) = Ret tt (s', e') ->
     len (Snake.body s') =
       Z.min (len (Snake.body s) + 1) (Snake.length s' + Snake.rattles s') /\
     len (Snake.body s') <= Snake.length s' + Snake.rattles s' /\
     (Snake.length s' + Snake.rattles s' <= len (Snake.body s) + 1 ->
      len (Snake.body s') = Snake.length s' + Snake.rattles s')) /\
  (Snake.body s <> [] ->
   0 <= Snake.length s + Snake.rattles s ->
   exists s' e', Snake_update dt (s, e) = Ret tt (s', e')).
Proof.
  intros Ht.
  destruct (Snake.body s) as [|hd tl] eqn:Hbody.
  - rewrite (Snake_update_due _ _ _ Ht).
    destruct (move_run (Snake.set_time_to_move (Snake.time_to_move s - dt)%Q s) e)
      as (d' & r' & ->).
    rewrite advance_empty by (cbn; exact Hbody).
    split; [intros s' e' Hrun; discriminate Hrun|intros Hb; congruence].
  - destruct (Snake_update_moved dt s e hd tl Ht Hbody) as (d' & lg' & e1 & Hlg & ->).
    cbn zeta.
    destruct (Z.leb_spec 0 (lg' + Snake.rattles s)) as [Hnn'|Hneg].
    + split; [|eauto].
      intros s' e' [= <- <-].
      cbn [Snake.body Snake.length Snake.rattles].
      unfold len. rewrite length_take, Hbody. cbn [length]. lia.
    + split; [intros s' e' Hrun; discriminate Hrun|intros _ Hnn; lia].
Qed.

(** C4.  Updates never drive [length] above the cap of 15: over any
    sequence of update calls, whatever eggs it meets and also when a call
    raises, a snake that starts with [length <= 15] ends with
    [length <= 15]; and eating an egg adds one to [length] exactly when
    [length < 15]. *)
Theorem update_length_capped (dts : list Q) (s : Snake.t) (e : Env) :
  Snake.max_length s = 15 ->
  Snake.length s <= 15 ->
  let s' := (final_state (foreach dts Snake_update (s, e))).1 in
  Snake.length s' <= 15 /\ Snake.max_length s' = 15 /\
  forall ix iy,
    Snake.length (final_state (eat_egg ix iy (s, e))).1 =
      if Snake.length s <? 15 then Snake.length s + 1 else Snake.length s.
Proof.
  intros Hmax Hle. cbn zeta. split; [|split].
  - revert s e Hmax Hle. induction dts as [|dt dts IH]; intros s e Hmax Hle.
    + exact Hle.
    + cbn [foreach]. unfold bind.
      pose proof (Snake_update_length dt s e) as Hstep. cbn zeta in Hstep.
      destruct (Snake_update dt (s, e)) as [[] [s1 e1]|ex [s1 e1]];
        cbn [final_state fst] in Hstep |- *.
      * apply IH; lia.
      * lia.
  - revert s e Hmax Hle. induction dts as [|dt dts IH]; intros s e Hmax Hle.
    + exact Hmax.
    + cbn [foreach]. unfold bind.
      pose proof (Snake_update_length dt s e) as Hstep. cbn zeta in Hstep.
      destruct (Snake_update dt (s, e)) as [[] [s1 e1]|ex [s1 e1]];
        cbn [final_state fst] in Hstep |- *.
      * apply IH; lia.
      * lia.
  - intros ix iy. unfold eat_egg, bind. cbn -[Z.add Z.ltb]. rewrite Hmax.
    destruct (Snake.length s <? 15); reflexivity.
Qed.

(** C10.  A new snake has the one-segment body [[(x, y)]] with [length = 3]
    and [rattles = 0], so its body is shorter than [length + rattles]; one
    update later the body has at most two segments and is still shorter;
    and the trim loop leaves a body that is not too long as it is. *)
Theorem new_snake_body_short (x y : Z) (e : Env) :
  exists s e',
    Snake_init x y e = Ret s e' /\
    Snake.body s = [(x, y)] /\ Snake.length s = 3 /\ Snake.rattles s = 0 /\
    len (Snake.body s) < Snake.length s + Snake.rattles s /\
    (forall dt e1,
       let s' := (final_state (Snake_update dt (s, e1))).1 in
       len (Snake.body s') <= 2 /\
       len (Snake.body s') < Snake.length s' + Snake.rattles s') /\
    (forall fuel s0 e0,
       len (Snake.body s0) <= Snake.length s0 + Snake.rattles s0 ->
       trim_tail fuel (s0, e0) = Ret tt (s0, e0)).
Proof.
  unfold Snake_init, bind.
  destruct (random_choice_directions e) as [d ->].
  eexists _, _. split; [reflexivity|].
  cbn [Snake.body Snake.length Snake.rattles].
  do 3 (split; [reflexivity|]). split; [unfold len; cbn; lia|]. split.
  - intros dt e1. cbn zeta.
    set (s := Snake.mk x y 3 15 [(x, y)] d 0 (1 # 2) 0).
    destruct (Qle_bool (Snake.time_to_move s - dt) 0) eqn:Ht.
    + destruct (Snake_update_moved dt s e1 (x, y) [] Ht eq_refl)
        as (d' & lg' & e' & Hlg & ->).
      cbn zeta. cbn [Snake.length Snake.max_length Snake.rattles s] in Hlg |- *.
      destruct (Z.leb_spec 0 (lg' + 0)) as [Hnn|Hneg]; [|lia].
      cbn [final_state fst Snake.body Snake.length Snake.rattles].
      unfold len. rewrite length_take. cbn [length Snake.body s]. lia.
    + rewrite (Snake_update_idle _ _ _ Ht). cbn. unfold len. cbn. lia.
  - intros fuel s0 e0. apply trim_tail_short.
Qed.

End Snake_facts.

Section Bite_facts.
Context `{Host}.

(** The state of the target when [bite] looks at it: the attacker's new
    rattles are already in place, which shows when both are one object. *)
Lemma lookup_add_rattles (i j : nat) (snakes : list Snake.t) (B : Snake.t) :
  snakes !! j = Some B ->
  exists B0, alter add_rattles i snakes !! j = Some B0 /\
             Snake.body B0 = Snake.body B /\ Snake.length B0 = Snake.length B.
Proof.
  intros HB. destruct (decide (i = j)) as [->|Hne].
  - exists (add_rattles B). rewrite list_lookup_alter_eq, HB. auto.
  - exists B. rewrite list_lookup_alter_ne by exact Hne. auto.
Qed.

Lemma middle_index_bounds (body : list Position) :
  3 < len body ->
  (2 <= middle_index body < length body)%nat /\
  Z.of_nat (middle_index body) = len body / 2.
Proof.
  unfold middle_index, len. intros Hlen. split.
  - split.
    + apply (Nat.div_le_lower_bound _ 2 2); lia.
    + apply Nat.div_lt; lia.
  - rewrite Nat2Z.inj_div. reflexivity.
Qed.

(** [bite] on a target of more than three segments, in closed form. *)
Lemma Snake_bite_long (i j : nat) (snakes : list Snake.t) (e : Env) (B : Snake.t) :
  snakes !! j = Some B ->
  3 < len (Snake.body B) ->
  Snake_bite i j (snakes, e) =
    Ret true
      (alter lose_length j
         (alter (Snake.set_body (delete (middle_index (Snake.body B)) (Snake.body B))) j
            (alter add_rattles i snakes)),
       set_message bite_text 2 e).
Proof.
  intros HB Hlen.
  destruct (lookup_add_rattles i j snakes B HB) as (B0 & HB0 & Hbody & _).
  unfold Snake_bite, bind at 1. cbn -[Z.add Z.gtb middle_index alter].
  unfold bind at 1. cbn -[Z.add Z.gtb middle_index alter].
  fold add_rattles. rewrite HB0, Hbody.
  destruct (Z.gtb_spec (len (Snake.body B)) 3) as [_|Hle]; [|lia].
  unfold py_pop_at.
  destruct (middle_index_bounds _ Hlen) as [[_ Hlt] _].
  destruct (decide (middle_index (Snake.body B) < length (Snake.body B))%nat);
    [|contradiction].
  reflexivity.
Qed.

(** [bite] on a target of at most three segments, in closed form. *)
Lemma Snake_bite_short (i j : nat) (snakes : list Snake.t) (e : Env) (B : Snake.t) :
  snakes !! j = Some B ->
  len (Snake.body B) <= 3 ->
  Snake_bite i j (snakes, e) = Ret false (alter add_rattles i snakes, e).
Proof.
  intros HB Hlen.
  destruct (lookup_add_rattles i j snakes B HB) as (B0 & HB0 & Hbody & _).
  unfold Snake_bite, bind at 1. cbn -[Z.add Z.gtb middle_index alter].
  unfold bind at 1. cbn -[Z.add Z.gtb middle_index alter].
  fold add_rattles. rewrite HB0, Hbody.
  destruct (Z.gtb_spec (len (Snake.body B)) 3) as [Hgt|_]; [lia|].
  reflexivity.
Qed.

(** C2.  [A.bite(B)] on a target of more than three segments returns
    [True]; afterwards B's body is the old one without the segment at
    index [len(B.body) // 2], B's length is one less, A's rattles are two
    more, and the game shows the bite message for 2 seconds.  The snakes
    are the objects at indices [i] and [j]; [i = j] is allowed. *)
Theorem bite_long_target (i j : nat) (snakes : list Snake.t) (e : Env)
    (A B : Snake.t) :
  snakes !! i = Some A ->
  snakes !! j = Some B ->
  3 < len (Snake.body B) ->
  exists snakes' e' A' B',
    Snake_bite i j (snakes, e) = Ret true (snakes', e') /\
    snakes' !! i = Some A' /\ snakes' !! j = Some B' /\
    Z.of_nat (middle_index (Snake.body B)) = len (Snake.body B) / 2 /\
    Snake.body B' =
      take (middle_index (Snake.body B)) (Snake.body B) ++
      drop (Datatypes.S (middle_index (Snake.body B))) (Snake.body B) /\
    len (Snake.body B') = len (Snake.body B) - 1 /\
    Snake.length B' = Snake.length B - 1 /\
    Snake.rattles A' = Snake.rattles A + 2 /\
    message (game e') = bite_text /\
    message_timeout (game e') = 2%Q.
Proof.
  intros HA HB Hlen.
  rewrite (Snake_bite_long i j snakes e B HB Hlen).
  destruct (middle_index_bounds _ Hlen) as [[_ Hlt] Hmid].
  set (b := delete (middle_index (Snake.body B)) (Snake.body B)).
  assert (Hj : exists B0,
             alter add_rattles i snakes !! j = Some B0 /\
             Snake.length B0 = Snake.length B /\
             (i = j -> Snake.rattles B0 = Snake.rattles A + 2)).
  { destruct (decide (i = j)) as [->|Hne].
    - exists (add_rattles B). rewrite list_lookup_alter_eq, HB.
      split; [reflexivity|]. split; [reflexivity|].
      intros _. rewrite HA in HB. injection HB as ->. reflexivity.
    - exists B. rewrite list_lookup_alter_ne by exact Hne.
      split; [exact HB|]. split; [reflexivity|]. intros Heq. contradiction. }
  destruct Hj as (B0 & HB0 & HlenB0 & Halias).
  assert (HB' : alter lose_length j (alter (Snake.set_body b) j
                  (alter add_rattles i snakes)) !! j
                = Some (lose_length (Snake.set_body b B0))).
  { rewrite !list_lookup_alter_eq, HB0. reflexivity. }
  destruct (decide (i = j)) as [->|Hne].
  - eexists _, _, _, _. split; [reflexivity|].
    split; [exact HB'|]. split; [exact HB'|].
    split; [exact Hmid|].
    cbn [Snake.body Snake.length Snake.rattles lose_length Snake.set_length
         Snake.set_body game set_message set_game message message_timeout].
    split; [apply delete_take_drop|].
    split; [unfold b, len; rewrite length_delete by (apply lookup_lt_is_Some_2; exact Hlt);
            lia|].
    split; [lia|]. split; [apply Halias; reflexivity|]. split; reflexivity.
  - eexists _, _, (add_rattles A), _. split; [reflexivity|].
    split; [rewrite !list_lookup_alter_ne by exact (not_eq_sym Hne);
            rewrite list_lookup_alter_eq, HA; reflexivity|].
    split; [exact HB'|].
    split; [exact Hmid|].
    cbn [Snake.body Snake.length Snake.rattles lose_length Snake.set_length
         Snake.set_body game set_message set_game message message_timeout
         add_rattles Snake.set_rattles].
    split; [apply delete_take_drop|].
    split; [unfold b, len; rewrite length_delete by (apply lookup_lt_is_Some_2; exact Hlt);
            lia|].
    split; [lia|]. split; [reflexivity|]. split; reflexivity.
Qed.

(** C3.  [A.bite(B)] on a target of three segments or fewer returns
    [False]: B's body and length stay as they were, the game (so its
    message) and the random tape are untouched, and A's rattles are still
    two more. *)
Theorem bite_short_target (i j : nat) (snakes : list Snake.t) (e : Env)
    (A B : Snake.t) :
  snakes !! i = Some A ->
  snakes !! j = Some B ->
  len (Snake.body B) <= 3 ->
  exists snakes' A' B',
    Snake_bite i j (snakes, e) = Ret false (snakes', e) /\
    snakes' !! i = Some A' /\ snakes' !! j = Some B' /\
    Snake.body B' = Snake.body B /\
    Snake.length B' = Snake.length B /\
    Snake.rattles A' = Snake.rattles A + 2.
Proof.
  intros HA HB Hlen.
  rewrite (Snake_bite_short i j snakes e B HB Hlen).
  destruct (lookup_add_rattles i j snakes B HB) as (B0 & HB0 & Hbody & Hlg).
  exists (alter add_rattles i snakes), (add_rattles A), B0.
  split; [reflexivity|].
  split; [rewrite list_lookup_alter_eq, HA; reflexivity|].
  split; [exact HB0|]. split; [exact Hbody|]. split; [exact Hlg|]. reflexivity.
Qed.

(** C9.  With more than three segments in the target's body, the index
    [len(body) // 2] that [bite] removes lies inside the body and is at
    least 2: [pop] at it succeeds, removes one segment and keeps the head,
    and [bite] returns without raising. *)
Theorem bite_index_in_bounds (body : list Position) :
  3 < len body ->
  Z.of_nat (middle_index body) = len body / 2 /\
  (0 < middle_index body < length body)%nat /\
  py_pop_at (middle_index body) body = Some (delete (middle_index body) body) /\
  py_head (delete (middle_index body) body) = py_head body /\
  forall i j snakes e B,
    snakes !! j = Some B -> Snake.body B = body ->
    exists st', Snake_bite i j (snakes, e) = Ret true st'.
Proof.
  intros Hlen. destruct (middle_index_bounds _ Hlen) as [[Hge Hlt] Hmid].
  split; [exact Hmid|]. split; [lia|]. split; [|split].
  - unfold py_pop_at.
    destruct (decide (middle_index body < length body)%nat); [reflexivity|contradiction].
  - unfold py_head. apply list_lookup_delete_lt. lia.
  - intros i j snakes e B HB Hbody. subst body.
    rewrite (Snake_bite_long i j snakes e B HB Hlen). eauto.
Qed.

End Bite_facts.

Section Plugin_facts.
Context `{Host}.

Lemma Snake_bite_population (n i j : nat) : preserves (population n) (Snake_bite i j).
Proof.
  unfold population. intros [snakes e] Hn. cbn in Hn.
  destruct (snakes !! j) as [B|] eqn:HB.
  - destruct (Z.le_gt_cases (len (Snake.body B)) 3) as [Hle|Hgt].
    + rewrite (Snake_bite_short i j snakes e B HB Hle). cbn.
      rewrite length_alter. exact Hn.
    + rewrite (Snake_bite_long i j snakes e B HB) by lia. cbn.
      rewrite !length_alter. exact Hn.
  - assert (Hnone : alter add_rattles i snakes !! j = None).
    { rewrite list_lookup_alter. destruct (decide (i = j)) as [->|_];
        rewrite HB; reflexivity. }
    unfold Snake_bite, bind. cbn -[alter Z.add]. fold add_rattles.
    rewrite Hnone. cbn. rewrite length_alter. exact Hn.
Qed.

Lemma scan_segments_population (n i j : nat) (head1 : Position)
    (segments : list Position) :
  preserves (population n) (scan_segments i j head1 segments).
Proof.
  induction segments as [|segment rest IH]; cbn [scan_segments].
  - apply preserves_ret.
  - destruct (decide (head1 = segment)); [|exact IH].
    apply preserves_bind; [apply Snake_bite_population|intros b; apply preserves_ret].
Qed.

Lemma in_snake_population {A} (n i : nat) (dflt : A) (m : M (Snake.t * Env) A) :
  preserves (population n) (in_snake i dflt m).
Proof.
  unfold population. intros [snakes e] Hn. cbn in Hn. unfold in_snake, bind. cbn -[zoom].
  destruct (snakes !! i) as [s|]; [|exact Hn].
  unfold zoom. destruct (m _) as [a t|ex t]; cbn; rewrite length_insert; exact Hn.
Qed.

Lemma collide_pair_population (n i j : nat) (head1 : Position) :
  preserves (population n) (collide_pair i head1 j).
Proof.
  apply preserves_bind; [apply preserves_get|intros st].
  destruct (st.1 !! j) as [snake2|]; [|apply preserves_ret].
  destruct ((i =? j)%nat || (len (Snake.body snake2) <? 2)); [apply preserves_ret|].
  apply scan_segments_population.
Qed.

Lemma collide_from_population (n m i : nat) :
  preserves (population n) (collide_from m i).
Proof.
  apply preserves_bind; [apply preserves_get|intros st].
  destruct (st.1 !! i) as [snake1|]; [|apply preserves_ret].
  destruct (len (Snake.body snake1) =? 0); [apply preserves_ret|].
  destruct (py_head (Snake.body snake1)) as [head1|]; [|apply preserves_raise].
  apply preserves_for. intros j. apply collide_pair_population.
Qed.

Lemma in_snakes_final {A} (m : M (list Snake.t * Env) A) (p : SnakePlugin.t) (e : Env) :
  final_state (in_snakes m (p, e)) =
    (SnakePlugin.set_snakes (final_state (m (SnakePlugin.snakes p, e))).1 p,
     (final_state (m (SnakePlugin.snakes p, e))).2).
Proof.
  unfold in_snakes, zoom. cbn. destruct (m _) as [a t|ex t]; reflexivity.
Qed.

(** One trial of a spawn attempt. *)
Lemma spawn_trials_step (n : nat) (p : SnakePlugin.t) (e : Env) :
  spawn_trials (Datatypes.S n) (p, e) =
    let offset := trial_offset (rng e) 0 in
    let e2 := set_rng (rng_skip 2 (rng e)) e in
    (if is_plant (game e) offset then
       snake <~ in_env (Snake_init offset.1 offset.2) ;
       on_plugin (fun p => SnakePlugin.set_snakes (SnakePlugin.snakes p ++ [snake]) p) >>
       ret true
     else spawn_trials n) (p, e2).
Proof. reflexivity. Qed.

Lemma trial_offset_skip (r : Rng) (k : nat) :
  trial_offset (rng_skip 2 r) k = trial_offset r (Datatypes.S k).
Proof.
  unfold trial_offset, rng_skip. cbn [tape cursor].
  replace (2 * k + (2 + cursor r))%nat with (2 * Datatypes.S k + cursor r)%nat by lia.
  replace (2 * k + 1 + (2 + cursor r))%nat
    with (2 * Datatypes.S k + 1 + cursor r)%nat by lia.
  reflexivity.
Qed.

(** Trials that find no plant only consume the tape. *)
Lemma spawn_trials_none (n : nat) (p : SnakePlugin.t) (e : Env) :
  (forall k, (k < n)%nat -> is_plant (game e) (trial_offset (rng e) k) = false) ->
  spawn_trials n (p, e) = Ret false (p, set_rng (rng_skip (2 * n) (rng e)) e).
Proof.
  revert e. induction n as [|n IH]; intros e Hnone.
  - destruct e as [g [tp c]]. reflexivity.
  - rewrite spawn_trials_step. cbn zeta.
    rewrite (Hnone 0%nat) by lia.
    rewrite IH.
    + unfold set_rng, rng_skip. cbn [game rng tape cursor].
      replace (2 * n + (2 + cursor (rng e)))%nat
        with (2 * Datatypes.S n + cursor (rng e))%nat by lia.
      reflexivity.
    + intros k Hk. cbn [game rng set_rng]. rewrite trial_offset_skip.
      apply Hnone. lia.
Qed.

(** A spawn attempt adds at most one snake and changes nothing else of
    the plugin. *)
Lemma spawn_trials_grow (n : nat) (p : SnakePlugin.t) (e : Env) :
  let p' := (final_state (spawn_trials n (p, e))).1 in
  (length (SnakePlugin.snakes p') <= Datatypes.S (length (SnakePlugin.snakes p)))%nat /\
  SnakePlugin.max_snakes p' = SnakePlugin.max_snakes p.
Proof.
  cbn zeta. revert e. induction n as [|n IH]; intros e.
  - cbn. split; [lia|reflexivity].
  - rewrite spawn_trials_step. cbn zeta.
    destruct (is_plant _ _); [|apply IH].
    unfold bind, in_env, zoom, Snake_init, bind.
    destruct (random_choice_directions (set_rng (rng_skip 2 (rng e)) e)) as [d Hd].
    cbn [snd]. rewrite Hd. cbn. rewrite length_app. cbn. split; [lia|reflexivity].
Qed.

Lemma try_spawn_snake_capped : preserves capped try_spawn_snake.
Proof.
  intros [p e] [Hlen Hmax]. cbn [fst] in Hlen, Hmax.
  unfold try_spawn_snake, bind. cbn -[spawn_trials Z.geb].
  destruct (Z.geb_spec (len (SnakePlugin.snakes p)) (SnakePlugin.max_snakes p))
    as [Hge|Hlt].
  - split; assumption.
  - pose proof (spawn_trials_grow 10 p e) as [Hgrow Hmax'].
    split; [unfold len in *; lia|congruence].
Qed.

Lemma in_snakes_capped {A} (m : M (list Snake.t * Env) A) :
  (forall n, preserves (population n) m) -> preserves capped (in_snakes m).
Proof.
  intros Hm [p e] [Hlen Hmax]. cbn [fst] in Hlen, Hmax.
  rewrite in_snakes_final.
  specialize (Hm (length (SnakePlugin.snakes p)) (SnakePlugin.snakes p, e) eq_refl).
  unfold population in Hm. split; cbn; [unfold len in *; lia|exact Hmax].
Qed.

Lemma check_snake_collisions_capped : preserves capped check_snake_collisions.
Proof.
  apply in_snakes_capped. intros n.
  apply preserves_bind; [apply preserves_get|intros st].
  apply preserves_for. intros i. apply collide_from_population.
Qed.

Lemma SnakePlugin_update_capped (dt : Q) : preserves capped (SnakePlugin_update dt).
Proof.
  unfold SnakePlugin_update.
  apply preserves_bind; [apply preserves_get|intros st].
  destruct (negb _); [apply preserves_ret|].
  apply preserves_bind; [|intros _].
  { apply in_snakes_capped. intros n. apply preserves_foreach. intros i.
    apply in_snake_population. }
  apply preserves_bind; [apply check_snake_collisions_capped|intros _].
  apply preserves_bind; [|intros _].
  { apply preserves_modify. intros [p e] Hc. exact Hc. }
  apply preserves_bind; [apply preserves_get|intros st'].
  destruct (Qle_bool _ _); [|apply preserves_ret].
  apply preserves_bind; [|intros _].
  { apply preserves_modify. intros [p e] Hc. exact Hc. }
  apply preserves_bind; [apply try_spawn_snake_capped|intros _].
  apply preserves_ret.
Qed.

(** C5.  With [max_snakes = 5]: once five or more snakes are present
    [try_spawn_snake] returns [False] and changes nothing; and an update of
    the plugin that starts with at most five snakes ends with at most five,
    whether it returns or raises. *)
Theorem population_capped (p : SnakePlugin.t) (e : Env) :
  SnakePlugin.max_snakes p = 5 ->
  (5 <= len (SnakePlugin.snakes p) -> try_spawn_snake (p, e) = Ret false (p, e)) /\
  (len (SnakePlugin.snakes p) <= 5 ->
   forall dt,
     let st' := final_state (SnakePlugin_update dt (p, e)) in
     len (SnakePlugin.snakes st'.1) <= 5 /\ SnakePlugin.max_snakes st'.1 = 5).
Proof.
  intros Hmax. split.
  - intros Hfull. unfold try_spawn_snake, bind. cbn -[spawn_trials Z.geb].
    rewrite Hmax.
    destruct (Z.geb_spec (len (SnakePlugin.snakes p)) 5); [reflexivity|lia].
  - intros Hlen dt. apply (SnakePlugin_update_capped dt (p, e)). split; assumption.
Qed.

(** C6.  Below the cap, when none of the ten trial offsets lands on a
    plant, [try_spawn_snake] returns [False]; the plugin, so the list of
    snakes, and the game are unchanged, and only the twenty draws are gone
    from the random tape. *)
Theorem spawn_without_plant (p : SnakePlugin.t) (e : Env) :
  len (SnakePlugin.snakes p) < SnakePlugin.max_snakes p ->
  (forall k, (k < 10)%nat -> is_plant (game e) (trial_offset (rng e) k) = false) ->
  try_spawn_snake (p, e) = Ret false (p, set_rng (rng_skip 20 (rng e)) e).
Proof.
  intros Hbelow Hnone. unfold try_spawn_snake, bind. cbn -[spawn_trials Z.geb].
  destruct (Z.geb_spec (len (SnakePlugin.snakes p)) (SnakePlugin.max_snakes p));
    [lia|].
  apply (spawn_trials_none 10 p e Hnone).
Qed.

(** C7.  An inactive plugin's [update] returns at once: no snake, no
    timer, no part of the game and no random draw changes, for any [dt]. *)
Theorem inactive_update_noop (dt : Q) (p : SnakePlugin.t) (e : Env) :
  SnakePlugin.active p = false ->
  SnakePlugin_update dt (p, e) = Ret tt (p, e).
Proof.
  intros Hoff. unfold SnakePlugin_update, bind. cbn -[in_snakes]. rewrite Hoff.
  reflexivity.
Qed.

End Plugin_facts.


Section Scan_facts.
Context `{Host}.

Lemma scan_segments_hit (i j : nat) (head1 : Position) (segments : list Position)
    (st : list Snake.t * Env) :
  head1 ∈ segments ->
  scan_segments i j head1 segments st = (b <~ Snake_bite i j ; ret [(i, j, b)]) st.
Proof.
  induction segments as [|segment rest IH]; intros Hin.
  - apply elem_of_nil in Hin. contradiction.
  - cbn [scan_segments]. destruct (decide (head1 = segment)) as [_|Hne]; [reflexivity|].
    apply IH. apply elem_of_cons in Hin. destruct Hin; [contradiction|assumption].
Qed.

Lemma scan_segments_miss (i j : nat) (head1 : Position) (segments : list Position)
    (st : list Snake.t * Env) :
  head1 ∉ segments ->
  scan_segments i j head1 segments st = Ret [] st.
Proof.
  induction segments as [|segment rest IH]; intros Hout; [reflexivity|].
  cbn [scan_segments]. destruct (decide (head1 = segment)) as [->|Hne].
  - exfalso. apply Hout. left.
  - apply IH. intros Hin. apply Hout. right. exact Hin.
Qed.

Lemma bodies_add_rattles (i : nat) (l : list Snake.t) :
  bodies (alter add_rattles i l) = bodies l.
Proof.
  unfold bodies. rewrite (list_fmap_alter Snake.body add_rattles (fun c => c)).
  - apply list_alter_id. reflexivity.
  - apply Forall_forall. reflexivity.
Qed.

Lemma bodies_bitten (i j : nat) (c : list Position) (l : list Snake.t) :
  bodies (alter lose_length j (alter (Snake.set_body c) j (alter add_rattles i l))) =
    alter (fun _ => c) j (bodies l).
Proof.
  unfold bodies.
  rewrite (list_fmap_alter Snake.body lose_length (fun c => c))
    by (apply Forall_forall; reflexivity).
  rewrite list_alter_id by reflexivity.
  rewrite (list_fmap_alter Snake.body (Snake.set_body c) (fun _ => c))
    by (apply Forall_forall; reflexivity).
  fold (bodies (alter add_rattles i l)). rewrite bodies_add_rattles. reflexivity.
Qed.

Lemma bodies_lookup (l : list Snake.t) (k : nat) (c : list Position) :
  bodies l !! k = Some c -> exists s, l !! k = Some s /\ Snake.body s = c.
Proof.
  unfold bodies. rewrite list_lookup_fmap. intros Hk.
  apply fmap_Some in Hk as (s & Hs & ->). eauto.
Qed.

Lemma delete_keeps_head (m : nat) (c : list Position) :
  (0 < m)%nat -> py_head (delete m c) = py_head c.
Proof. intros Hm. unfold py_head. apply list_lookup_delete_lt. exact Hm. Qed.

Lemma delete_tail_subseteq (m : nat) (c : list Position) :
  (0 < m)%nat -> drop 1 (delete m c) ⊆ drop 1 c.
Proof.
  intros Hm. destruct c as [|x c]; [reflexivity|].
  destruct m as [|m]; [lia|]. cbn. apply list_subseteq_delete.
Qed.

End Scan_facts.

Section Mutual.
Context `{Host}.
Variables (bs0 : list (list Position)) (a b : nat).
Variables (bA bB : list Position) (hA hB : Position).
Hypothesis Hab : a <> b.
Hypothesis HA0 : bs0 !! a = Some bA.
Hypothesis HB0 : bs0 !! b = Some bB.
Hypothesis HhA : py_head bA = Some hA.
Hypothesis HhB : py_head bB = Some hB.
Hypothesis HAB : hA ∈ drop 1 bB.
Hypothesis HBA : hB ∈ drop 1 bA.
Hypothesis HlenA : 3 < len bA.
Hypothesis HlenB : 3 < len bB.
Hypothesis Hthird : forall k c h,
  k <> a -> k <> b -> bs0 !! k = Some c -> py_head c = Some h ->
  (h ∉ drop 1 bA) /\ (h ∉ drop 1 bB).

Local Abbreviation inv := (pass_inv bs0 a b bA bB).

Lemma inv_more (log es : list BiteEvent) (bs : list (list Position)) :
  inv log bs -> inv (log ++ es) bs.
Proof.
  intros (Hall & HdA & HdB). split; [exact Hall|].
  split; [destruct HdA|destruct HdB]; auto using elem_of_app.
  - right. apply elem_of_app. auto.
  - right. apply elem_of_app. auto.
Qed.

(** A successful bite of [i] on [j] keeps the invariant: a snake that
    bites [a] or [b] can only be the other of the two. *)
Lemma inv_bitten (log : list BiteEvent) (bs : list (list Position)) (i j : nat)
    (ci0 cj : list Position) (head1 : Position) :
  inv log bs ->
  i <> j ->
  bs0 !! i = Some ci0 -> py_head ci0 = Some head1 ->
  bs !! j = Some cj ->
  head1 ∈ drop 1 cj ->
  3 < len cj ->
  inv (log ++ [(i, j, true)]) (alter (fun _ => delete (middle_index cj) cj) j bs).
Proof.
  intros (Hall & HdA & HdB) Hij Hi0 Hhead Hj Hin Hlen.
  destruct (middle_index_bounds cj Hlen) as [[Hmid _] _].
  assert (Hsub : forall c0, bs0 !! j = Some c0 -> head1 ∈ drop 1 c0).
  { intros c0 Hc0. destruct (Hall j c0 Hc0) as (c & Hc & _ & Hincl).
    rewrite Hj in Hc. injection Hc as <-. apply Hincl, Hin. }
  split; [|split].
  - intros k c0 Hk. destruct (Hall k c0 Hk) as (c & Hc & Hhd & Htl).
    destruct (decide (k = j)) as [->|Hkj].
    + rewrite Hj in Hc. injection Hc as <-.
      exists (delete (middle_index cj) cj).
      rewrite list_lookup_alter_eq, Hj. split; [reflexivity|]. split.
      * rewrite delete_keeps_head by lia. exact Hhd.
      * etransitivity; [apply delete_tail_subseteq; lia|exact Htl].
    + exists c. rewrite list_lookup_alter_ne by auto. auto.
  - destruct (decide (j = a)) as [->|Hja].
    + right. apply elem_of_app. right. apply list_elem_of_singleton.
      destruct (decide (i = b)) as [->|Hib]; [reflexivity|].
      exfalso. destruct (Hthird i ci0 head1 Hij Hib Hi0 Hhead) as [Hno _].
      apply Hno, Hsub, HA0.
    + destruct HdA as [HdA|HdA].
      * left. rewrite list_lookup_alter_ne by auto. exact HdA.
      * right. apply elem_of_app. auto.
  - destruct (decide (j = b)) as [->|Hjb].
    + right. apply elem_of_app. right. apply list_elem_of_singleton.
      destruct (decide (i = a)) as [->|Hia]; [reflexivity|].
      exfalso. destruct (Hthird i ci0 head1 Hia Hij Hi0 Hhead) as [_ Hno].
      apply Hno, Hsub, HB0.
    + destruct HdB as [HdB|HdB].
      * left. rewrite list_lookup_alter_ne by auto. exact HdB.
      * right. apply elem_of_app. auto.
Qed.

(** One pair of the pass.  It returns, keeps the invariant, and when the
    pair is [(a, b)] or [(b, a)] the successful bite is in the log
    afterwards. *)
Lemma collide_pair_step (i j : nat) (ci0 : list Position) (head1 : Position)
    (log : list BiteEvent) (st : list Snake.t * Env) :
  bs0 !! i = Some ci0 -> py_head ci0 = Some head1 ->
  (j < length bs0)%nat ->
  inv log (bodies st.1) ->
  exists es st',
    collide_pair i head1 j st = Ret es st' /\
    inv (log ++ es) (bodies st'.1) /\
    (i = a -> j = b -> (a, b, true) ∈ log ++ es) /\
    (i = b -> j = a -> (b, a, true) ∈ log ++ es).
Proof.
  intros Hi0 Hhead Hj Hinv. destruct st as [l e]. cbn [fst] in Hinv.
  pose proof Hinv as (Hall & HdA & HdB).
  destruct (lookup_lt_is_Some_2 bs0 j Hj) as [cj0 Hj0].
  destruct (Hall j cj0 Hj0) as (cj & Hcj & Hhd & Htl).
  destruct (bodies_lookup l j cj Hcj) as (snake2 & Hl & Hbody).
  (* what the pair must deliver when the target still has its first body *)
  assert (Hgoal_ab : i = a -> j = b -> cj = bB \/ (a, b, true) ∈ log).
  { intros -> ->. destruct HdB as [HdB|HdB]; [left|right; exact HdB].
    rewrite Hcj in HdB. injection HdB as ->. reflexivity. }
  assert (Hgoal_ba : i = b -> j = a -> cj = bA \/ (b, a, true) ∈ log).
  { intros -> ->. destruct HdA as [HdA|HdA]; [left|right; exact HdA].
    rewrite Hcj in HdA. injection HdA as ->. reflexivity. }
  assert (Hhead_a : i = a -> head1 = hA).
  { intros ->. rewrite HA0 in Hi0. injection Hi0 as <-. congruence. }
  assert (Hhead_b : i = b -> head1 = hB).
  { intros ->. rewrite HB0 in Hi0. injection Hi0 as <-. congruence. }
  unfold collide_pair, bind. cbn [get fst]. rewrite Hl, Hbody.
  destruct (Nat.eqb_spec i j) as [Heq|Hij]; cbn [orb].
  { exists [], (l, e). split; [reflexivity|]. split; [apply inv_more, Hinv|].
    split; intros; subst; contradiction. }
  destruct (Z.ltb_spec (len cj) 2) as [Hshort|Hlong2].
  { exists [], (l, e). split; [reflexivity|]. split; [apply inv_more, Hinv|].
    split; intros Hi Hj'; apply elem_of_app; left.
    - destruct (Hgoal_ab Hi Hj') as [->|Hlog]; [lia|exact Hlog].
    - destruct (Hgoal_ba Hi Hj') as [->|Hlog]; [lia|exact Hlog]. }
  destruct (decide (head1 ∈ drop 1 cj)) as [Hin|Hout].
  2:{ rewrite scan_segments_miss by exact Hout.
      exists [], (l, e). split; [reflexivity|]. split; [apply inv_more, Hinv|].
      split; intros Hi Hj'; apply elem_of_app; left.
      - destruct (Hgoal_ab Hi Hj') as [->|Hlog]; [|exact Hlog].
        exfalso. apply Hout. rewrite (Hhead_a Hi). exact HAB.
      - destruct (Hgoal_ba Hi Hj') as [->|Hlog]; [|exact Hlog].
        exfalso. apply Hout. rewrite (Hhead_b Hi). exact HBA. }
  rewrite scan_segments_hit by exact Hin. unfold bind.
  destruct (Z.le_gt_cases (len cj) 3) as [Hle|Hgt].
  - rewrite (Snake_bite_short i j l e snake2 Hl) by (rewrite Hbody; exact Hle).
    eexists _, _. split; [reflexivity|]. cbn [fst].
    rewrite bodies_add_rattles. split; [apply inv_more, Hinv|].
    split; intros Hi Hj'; apply elem_of_app; left.
    + destruct (Hgoal_ab Hi Hj') as [->|Hlog]; [lia|exact Hlog].
    + destruct (Hgoal_ba Hi Hj') as [->|Hlog]; [lia|exact Hlog].
  - rewrite (Snake_bite_long i j l e snake2 Hl) by (rewrite Hbody; lia).
    eexists _, _. split; [reflexivity|]. cbn [fst].
    rewrite bodies_bitten, Hbody.
    split; [apply (inv_bitten log (bodies l) i j ci0 cj head1); auto; lia|].
    split; intros -> ->; apply elem_of_app; right; apply list_elem_of_singleton;
      reflexivity.
Qed.

(** The attacker [i]: all its pairs. *)
Lemma collide_from_step (i : nat) (log : list BiteEvent) (st : list Snake.t * Env) :
  (i < length bs0)%nat ->
  inv log (bodies st.1) ->
  (a < i -> (a, b, true) ∈ log)%nat ->
  (b < i -> (b, a, true) ∈ log)%nat ->
  exists es st',
    collide_from (length bs0) i st = Ret es st' /\
    inv (log ++ es) (bodies st'.1) /\
    (a < Datatypes.S i -> (a, b, true) ∈ log ++ es)%nat /\
    (b < Datatypes.S i -> (b, a, true) ∈ log ++ es)%nat.
Proof.
  intros Hi Hinv Hpa Hpb. destruct st as [l e]. cbn [fst] in Hinv.
  pose proof Hinv as (Hall & _ & _).
  destruct (lookup_lt_is_Some_2 bs0 i Hi) as [ci0 Hi0].
  destruct (Hall i ci0 Hi0) as (ci & Hci & Hhd & _).
  destruct (bodies_lookup l i ci Hci) as (snake1 & Hl & Hbody).
  assert (Hb_lt : (b < length bs0)%nat) by (apply lookup_lt_is_Some; eauto).
  assert (Ha_lt : (a < length bs0)%nat) by (apply lookup_lt_is_Some; eauto).
  unfold collide_from, bind. cbn [get fst]. rewrite Hl, Hbody.
  destruct ci as [|head1 ci'].
  - (* no head: neither [a] nor [b] *)
    cbn. exists [], (l, e). split; [reflexivity|]. split; [apply inv_more, Hinv|].
    cbn in Hhd.
    split; intros Hlt; apply elem_of_app; left.
    + destruct (decide (a = i)) as [->|Hne]; [|apply Hpa; lia].
      rewrite HA0 in Hi0. injection Hi0 as <-. unfold py_head in *. congruence.
    + destruct (decide (b = i)) as [->|Hne]; [|apply Hpb; lia].
      rewrite HB0 in Hi0. injection Hi0 as <-. unfold py_head in *. congruence.
  - replace (len (head1 :: ci') =? 0) with false
      by (symmetry; apply Z.eqb_neq; unfold len; cbn [length]; lia).
    change (py_head (head1 :: ci')) with (Some head1) in Hhd |- *.
    cbv iota.
    destruct (for_seq_inv (length bs0) (collide_pair i head1)
                (fun j log' st' =>
                   inv log' (bodies st'.1) /\
                   (a < i -> (a, b, true) ∈ log')%nat /\
                   (b < i -> (b, a, true) ∈ log')%nat /\
                   (i = a -> b < j -> (a, b, true) ∈ log')%nat /\
                   (i = b -> a < j -> (b, a, true) ∈ log')%nat))
      with (log0 := log) (s0 := (l, e)) as (es & st' & Hrun & Hfin).
    + intros j log' st1 Hj (Hinv1 & Hpa1 & Hpb1 & Hia1 & Hib1).
      destruct (collide_pair_step i j ci0 head1 log' st1 Hi0 (eq_sym Hhd) Hj Hinv1)
        as (es & st2 & Hrun & Hinv2 & Hab2 & Hba2).
      exists es, st2. split; [exact Hrun|]. split; [exact Hinv2|].
      split; [intros; apply elem_of_app; auto|].
      split; [intros; apply elem_of_app; auto|].
      split.
      * intros Hia Hlt. destruct (decide (b = j)) as [<-|Hne]; [auto|].
        apply elem_of_app. left. apply Hia1; [exact Hia|lia].
      * intros Hib Hlt. destruct (decide (a = j)) as [<-|Hne]; [auto|].
        apply elem_of_app. left. apply Hib1; [exact Hib|lia].
    + split; [exact Hinv|]. split; [exact Hpa|]. split; [exact Hpb|].
      split; intros _ Hlt; lia.
    + destruct Hfin as (Hinv' & Hpa' & Hpb' & Hia' & Hib').
      exists es, st'. split; [exact Hrun|]. split; [exact Hinv'|].
      split; intros Hlt.
      * destruct (decide (a = i)) as [Heq|Hne]; [apply Hia'; auto|apply Hpa'; lia].
      * destruct (decide (b = i)) as [Heq|Hne]; [apply Hib'; auto|apply Hpb'; lia].
Qed.

(** The whole pass on the store of snakes. *)
Lemma collide_all (l : list Snake.t) (e : Env) :
  bodies l = bs0 ->
  exists log st',
    for_ (seq 0 (length l)) (collide_from (length l)) (l, e) = Ret log st' /\
    (a, b, true) ∈ log /\ (b, a, true) ∈ log.
Proof.
  intros Hl.
  assert (Hlen : length l = length bs0).
  { rewrite <- Hl. unfold bodies. rewrite length_fmap. reflexivity. }
  rewrite Hlen.
  destruct (for_seq_inv (length bs0) (collide_from (length bs0))
              (fun i log st =>
                 inv log (bodies st.1) /\
                 (a < i -> (a, b, true) ∈ log)%nat /\
                 (b < i -> (b, a, true) ∈ log)%nat))
    with (log0 := @nil BiteEvent) (s0 := (l, e)) as (log & st' & Hrun & Hfin).
  - intros i log st Hi (Hinv & Hpa & Hpb).
    apply collide_from_step; assumption.
  - cbn [fst]. rewrite Hl. split; [|split; intros Hlt; lia].
    split; [|auto]. intros k c0 Hk. exists c0. auto.
  - destruct Hfin as (_ & Hpa & Hpb). cbn [app] in Hpa, Hpb.
    exists log, st'. split; [exact Hrun|].
    split; [apply Hpa|apply Hpb]; apply lookup_lt_is_Some; eauto.
Qed.

End Mutual.

Section Collision_facts.
Context `{Host}.

(** C8, as amended.  Two distinct snakes A and B, each with more than
    three segments and each with its head on a non-head segment of the
    other, and no third snake with its head on a non-head segment of A or
    of B: the collision pass returns, and it has called both [A.bite(B)]
    and [B.bite(A)], each returning [True]. *)
Theorem mutual_bites (p : SnakePlugin.t) (e : Env) (a b : nat) (A B : Snake.t)
    (hA hB : Position) :
  a <> b ->
  SnakePlugin.snakes p !! a = Some A ->
  SnakePlugin.snakes p !! b = Some B ->
  py_head (Snake.body A) = Some hA ->
  py_head (Snake.body B) = Some hB ->
  hA ∈ drop 1 (Snake.body B) ->
  hB ∈ drop 1 (Snake.body A) ->
  3 < len (Snake.body A) ->
  3 < len (Snake.body B) ->
  (forall k C h, k <> a -> k <> b ->
     SnakePlugin.snakes p !! k = Some C -> py_head (Snake.body C) = Some h ->
     (h ∉ drop 1 (Snake.body A)) /\ (h ∉ drop 1 (Snake.body B))) ->
  exists log st',
    check_snake_collisions (p, e) = Ret log st' /\
    (a, b, true) ∈ log /\ (b, a, true) ∈ log.
Proof.
  intros Hab HA HB HhA HhB HAB HBA HlenA HlenB Hthird.
  assert (Hbodies : forall k s, SnakePlugin.snakes p !! k = Some s ->
                                bodies (SnakePlugin.snakes p) !! k = Some (Snake.body s)).
  { intros k s Hk. unfold bodies. rewrite list_lookup_fmap, Hk. reflexivity. }
  destruct (collide_all (bodies (SnakePlugin.snakes p)) a b
              (Snake.body A) (Snake.body B) hA hB Hab
              (Hbodies a A HA) (Hbodies b B HB) HhA HhB HAB HBA HlenA HlenB)
    with (l := SnakePlugin.snakes p) (e := e) as (log & st' & Hrun & Hlog).
  - intros k c h Hka Hkb Hk Hh.
    destruct (bodies_lookup _ _ _ Hk) as (C & HC & <-).
    exact (Hthird k C h Hka Hkb HC Hh).
  - reflexivity.
  - exists log. unfold check_snake_collisions, in_snakes, zoom, bind.
    cbn [get fst snd]. rewrite Hrun. eauto.
Qed.

End Collision_facts.

(** ** The claims on concrete snakes *)

Module Examples.
Import Fixtures.

(** C1 as the spec words it fails on a snake that has just been built: its
    first move leaves a body of two segments while [length + rattles] is
    three. *)
Lemma update_move_body_len_fresh :
  ~ (forall (H : Host) (dt : Q) (s s' : Snake.t) (e e' : @Env H),
       Qle_bool (Snake.time_to_move s - dt) 0 = true ->
       Snake_update dt (s, e) = Ret tt (s', e') ->
       len (Snake.body s') = Snake.length s' + Snake.rattles s').
Proof.
  intros Hclaim.
  pose (o := Snake_update (1 # 10) (fresh_snake, calm_env)).
  assert (Ho : exists s' e', o = Ret tt (s', e') /\ len (Snake.body s') = 2 /\
                             Snake.length s' = 3 /\ Snake.rattles s' = 0).
  { vm_compute. eexists _, _. repeat split. }
  destruct Ho as (s' & e' & Ho & Hlen & Hlg & Hr).
  specialize (Hclaim host (1 # 10)%Q fresh_snake s' calm_env e' eq_refl Ho).
  lia.
Qed.

Lemma update_move_body_len_witness :
  Qle_bool (Snake.time_to_move grown_snake - (1 # 2)) 0 = true /\
  exists s' e',
    Snake_update (1 # 2) (grown_snake, calm_env) = Ret tt (s', e') /\
    len (Snake.body s') = 3 /\ Snake.length s' + Snake.rattles s' = 3.
Proof.
  split; [reflexivity|].
  destruct (update_move_body_len (1 # 2) grown_snake calm_env eq_refl)
    as [Hlen Hruns].
  destruct Hruns as (s' & e' & Hrun); [discriminate|vm_compute; discriminate|].
  exists s', e'. split; [exact Hrun|].
  destruct (Hlen s' e' Hrun) as (_ & _ & Hfull).
  assert (Hsum : Snake.length s' + Snake.rattles s' = 3).
  { revert Hrun. vm_compute. intros [= <- _]. reflexivity. }
  split; [|exact Hsum]. rewrite Hfull; [exact Hsum|]. rewrite Hsum. vm_compute. discriminate.
Defined.

Lemma update_length_capped_witness :
  Snake.max_length capped_snake = 15 /\
  Snake.length capped_snake <= 15 /\
  let s' := (final_state (foreach [1 # 2; 1 # 2]%Q Snake_update
                            (capped_snake, calm_env))).1 in
  Snake.length s' <= 15 /\ Snake.max_length s' = 15 /\
  forall ix iy,
    Snake.length (final_state (eat_egg ix iy
                                 (capped_snake, calm_env))).1 =
      if Snake.length capped_snake <? 15
      then Snake.length capped_snake + 1
      else Snake.length capped_snake.
Proof.
  split; [reflexivity|]. split; [vm_compute; discriminate|].
  apply (update_length_capped [1 # 2; 1 # 2]%Q capped_snake calm_env).
  - reflexivity.
  - vm_compute; discriminate.
Defined.

(** The spec's movement scenario, and an egg met at the cap. *)
Example grown_snake_moves :
  exists s' e',
    Snake_update (1 # 2) (grown_snake, calm_env) = Ret tt (s', e') /\
    Snake.body s' = [(5, 4); (5, 5); (5, 6)] /\ Snake.length s' = 3.
Proof. vm_compute. eexists _, _. repeat split. Qed.

Example capped_snake_eats :
  exists s' e',
    Snake_update (1 # 2) (capped_snake, calm_env) = Ret tt (s', e') /\
    Snake.length s' = 15 /\ saves (game e') = 1%nat /\
    spaces (game e') !! "48,0"%string = Some (48, 0).
Proof. vm_compute. eexists _, _. repeat split. Qed.

Lemma bite_long_target_witness :
  exists snakes' e' A' B',
    Snake_bite 0 1 ([biter; target5], calm_env)
      = Ret true (snakes', e') /\
    snakes' !! 0%nat = Some A' /\ snakes' !! 1%nat = Some B' /\
    Snake.body B' = [(0, 2); (1, 2); (3, 2); (4, 2)] /\
    Snake.length B' = 2 /\ Snake.rattles A' = 2 /\
    message_timeout (game e') = 2%Q.
Proof.
  destruct (bite_long_target 0 1 [biter; target5] calm_env
              biter target5 eq_refl eq_refl)
    as (snakes' & e' & A' & B' & Hrun & HA & HB & _ & Hbody & _ & Hlg & Hr & _ & Hto).
  - vm_compute. reflexivity.
  - exists snakes', e', A', B'.
    split; [exact Hrun|]. split; [exact HA|]. split; [exact HB|].
    split; [exact Hbody|]. split; [exact Hlg|]. split; [exact Hr|]. exact Hto.
Defined.

Lemma bite_short_target_witness :
  exists snakes' A' B',
    Snake_bite 0 1 ([biter; target3], calm_env)
      = Ret false (snakes', calm_env) /\
    snakes' !! 0%nat = Some A' /\ snakes' !! 1%nat = Some B' /\
    Snake.body B' = [(1, 2); (2, 2); (3, 2)] /\
    Snake.length B' = 3 /\ Snake.rattles A' = 2.
Proof.
  apply (bite_short_target 0 1 [biter; target3] calm_env
           biter target3 eq_refl eq_refl).
  vm_compute. discriminate.
Defined.

Lemma bite_index_in_bounds_witness :
  3 < len (Snake.body target5) /\
  (0 < middle_index (Snake.body target5) < 5)%nat /\
  py_pop_at (middle_index (Snake.body target5)) (Snake.body target5)
    = Some [(0, 2); (1, 2); (3, 2); (4, 2)].
Proof.
  split; [vm_compute; reflexivity|].
  destruct (bite_index_in_bounds (H := host) (Snake.body target5))
    as (_ & Hin & Hpop & _).
  - vm_compute. reflexivity.
  - split; [exact Hin|exact Hpop].
Defined.

(** C8 as the spec words it fails when a third snake bites first: [pup]
    takes from [west] the very segment [hook]'s head lies on, so the pass
    never calls [hook.bite(west)]. *)
Lemma mutual_bites_interrupted :
  ~ (forall (H : Host) (p : SnakePlugin.t) (e : @Env H) (a b : nat) (A B : Snake.t)
            (hA hB : Position),
       a <> b ->
       SnakePlugin.snakes p !! a = Some A ->
       SnakePlugin.snakes p !! b = Some B ->
       py_head (Snake.body A) = Some hA ->
       py_head (Snake.body B) = Some hB ->
       hA ∈ drop 1 (Snake.body B) ->
       hB ∈ drop 1 (Snake.body A) ->
       3 < len (Snake.body A) ->
       3 < len (Snake.body B) ->
       exists log st',
         check_snake_collisions (p, e) = Ret log st' /\
         (a, b, true) ∈ log /\ (b, a, true) ∈ log).
Proof.
  intros Hclaim.
  destruct (Hclaim host crowded calm_env 1%nat 2%nat west hook (0, 0) (2, 0))
    as (log & st' & Hrun & _ & Hback);
    try reflexivity; try (vm_compute; congruence).
  - apply (bool_decide_unpack _). vm_compute. exact I.
  - apply (bool_decide_unpack _). vm_compute. exact I.
  - assert (Hlog : exists st, check_snake_collisions (crowded, calm_env)
                              = Ret [(0, 1, true); (1, 2, true)]%nat st).
    { vm_compute. eexists. reflexivity. }
    destruct Hlog as [st Hlog]. rewrite Hlog in Hrun. injection Hrun as <- _.
    apply (bool_decide_pack _) in Hback. vm_compute in Hback. exact Hback.
Qed.

Lemma mutual_bites_witness :
  exists log st',
    check_snake_collisions (duel, calm_env) = Ret log st' /\
    (0, 1, true)%nat ∈ log /\ (1, 0, true)%nat ∈ log.
Proof.
  apply (mutual_bites duel calm_env 0 1 west hook (0, 0) (2, 0));
    try reflexivity; try (vm_compute; congruence).
  - apply (bool_decide_unpack _). vm_compute. exact I.
  - apply (bool_decide_unpack _). vm_compute. exact I.
  - intros k C h Hk0 Hk1 Hk Hh.
    destruct k as [|[|[|k]]]; [lia|lia| |discriminate Hk].
    injection Hk as <-. injection Hh as <-.
    split; apply (bool_decide_unpack _); vm_compute; exact I.
Defined.

Lemma population_capped_witness :
  SnakePlugin.max_snakes full_house = 5 /\
  (5 <= len (SnakePlugin.snakes full_house) ->
   try_spawn_snake (full_house, plant_env) = Ret false (full_house, plant_env)) /\
  (len (SnakePlugin.snakes full_house) <= 5 ->
   forall dt,
     let st' := final_state (SnakePlugin_update dt (full_house, plant_env)) in
     len (SnakePlugin.snakes st'.1) <= 5 /\ SnakePlugin.max_snakes st'.1 = 5).
Proof.
  split; [reflexivity|].
  apply (population_capped full_house plant_env). reflexivity.
Defined.

Lemma spawn_without_plant_witness :
  len (SnakePlugin.snakes crowded) < SnakePlugin.max_snakes crowded /\
  try_spawn_snake (crowded, calm_env)
    = Ret false (crowded, set_rng (rng_skip 20 (rng calm_env)) calm_env).
Proof.
  split; [vm_compute; reflexivity|].
  apply (spawn_without_plant crowded calm_env).
  - vm_compute. reflexivity.
  - intros k _. vm_compute. reflexivity.
Defined.

Lemma inactive_update_noop_witness :
  SnakePlugin.active asleep = false /\
  SnakePlugin_update (1 # 2) (asleep, plant_env) = Ret tt (asleep, plant_env).
Proof.
  split; [reflexivity|].
  apply (inactive_update_noop (1 # 2) asleep plant_env). reflexivity.
Defined.

(** A spawn attempt that finds a plant on its first trial. *)
Example spawn_on_plant :
  exists st',
    try_spawn_snake (crowded, plant_env) = Ret true st' /\
    (Snake.body <$> SnakePlugin.snakes st'.1) !! 3%nat = Some [(0, -4)].
Proof. vm_compute. eexists. split; reflexivity. Qed.

(** The bystander aside, the two snakes of [duel] bite each other in one
    pass: each loses a segment and gains two rattles. *)
Example duel_pass :
  exists st',
    check_snake_collisions (duel, calm_env)
      = Ret [(0, 1, true); (1, 0, true)]%nat st' /\
    (Snake.rattles <$> SnakePlugin.snakes st'.1) = [2; 4; 0].
Proof. vm_compute. eexists. split; reflexivity. Qed.

End Examples.


(** * Further properties of the code *)

Section Returns_facts.
Context {S : Type}.

Lemma returns_ret {A} (P : S -> Prop) (a : A) : returns P (ret a) (fun _ s => P s).
Proof. intros s Hs. exists a, s. split; [reflexivity|exact Hs]. Qed.

Lemma returns_bind {A B} (P : S -> Prop) (R : A -> S -> Prop) (Q : B -> S -> Prop)
    (m : M S A) (k : A -> M S B) :
  returns P m R -> (forall a, returns (R a) (k a) Q) -> returns P (bind m k) Q.
Proof.
  intros Hm Hk s Hs. destruct (Hm s Hs) as (a & s1 & Hrun & HR).
  destruct (Hk a s1 HR) as (b & s2 & Hrun2 & HQ).
  exists b, s2. unfold bind. rewrite Hrun. split; [exact Hrun2|exact HQ].
Qed.

Lemma returns_weaken {A} (P P' : S -> Prop) (Q Q' : A -> S -> Prop) (m : M S A) :
  returns P m Q -> (forall s, P' s -> P s) -> (forall a s, Q a s -> Q' a s) ->
  returns P' m Q'.
Proof.
  intros Hm HP HQ s Hs. destruct (Hm s (HP s Hs)) as (a & s' & Hrun & Hq).
  exists a, s'. split; [exact Hrun|apply HQ, Hq].
Qed.

Lemma returns_get (P : S -> Prop) : returns P get (fun a s => a = s /\ P s).
Proof. intros s Hs. exists s, s. split; [reflexivity|split; [reflexivity|exact Hs]]. Qed.

Lemma returns_modify (P Q : S -> Prop) (f : S -> S) :
  (forall s, P s -> Q (f s)) -> returns P (modify f) (fun _ s => Q s).
Proof. intros Hf s Hs. exists tt, (f s). split; [reflexivity|apply Hf, Hs]. Qed.

Lemma returns_foreach {X} (I : S -> Prop) (xs : list X) (f : X -> M S unit) :
  (forall x, x ∈ xs -> returns I (f x) (fun _ s => I s)) ->
  returns I (foreach xs f) (fun _ s => I s).
Proof.
  induction xs as [|x xs IH]; intros Hf; cbn [foreach].
  - apply returns_ret.
  - apply (returns_bind I (fun _ s => I s)).
    + apply Hf. left.
    + intros _. apply IH. intros y Hy. apply Hf. right. exact Hy.
Qed.

(** A loop that collects events: it returns when its iterations do, and
    every event it reports is one an iteration reported. *)
Lemma returns_for {X E} (I : S -> Prop) (Φ : E -> Prop) (xs : list X)
    (f : X -> M S (list E)) :
  (forall x, x ∈ xs -> returns I (f x) (fun es s => I s /\ Forall Φ es)) ->
  returns I (for_ xs f) (fun es s => I s /\ Forall Φ es).
Proof.
  induction xs as [|x xs IH]; intros Hf; cbn [for_].
  - intros s Hs. exists [], s. split; [reflexivity|]. split; [exact Hs|constructor].
  - intros s Hs.
    destruct (Hf x ltac:(left) s Hs) as (es1 & s1 & Hrun1 & HI1 & HΦ1).
    destruct (IH (fun y Hy => Hf y ltac:(right; exact Hy)) s1 HI1)
      as (es2 & s2 & Hrun2 & HI2 & HΦ2).
    exists (es1 ++ es2), s2. unfold bind. rewrite Hrun1, Hrun2.
    split; [reflexivity|]. split; [exact HI2|]. apply Forall_app. auto.
Qed.

Lemma returns_zoom {T A} (P : S -> Prop) (Q : T -> Prop) (R : A -> T -> Prop)
    (R' : A -> S -> Prop) (view : S -> T) (update : T -> S -> S) (m : M T A) :
  returns Q m R ->
  (forall s, P s -> Q (view s)) ->
  (forall s a t, P s -> R a t -> R' a (update t s)) ->
  returns P (zoom view update m) R'.
Proof.
  intros Hm Hview Hupd s Hs.
  destruct (Hm (view s) (Hview s Hs)) as (a & t & Hrun & HR).
  exists a, (update t s). unfold zoom. rewrite Hrun.
  split; [reflexivity|]. apply (Hupd s a t Hs HR).
Qed.

End Returns_facts.

Section Snake_more.
Context `{Host}.

Lemma random_choice_directions_in (e : Env) :
  exists d, d ∈ directions /\
            random_choice directions e = Ret d (set_rng (rng_next (rng e)) e).
Proof.
  unfold random_choice, directions, bind, draw, bind. cbn -[N.modulo lookup N.of_nat].
  set (k := (tape (rng e) (cursor (rng e)) `mod` N.of_nat 4)%N).
  assert (Hk : (N.to_nat k < 4)%nat).
  { pose proof (N.mod_upper_bound (tape (rng e) (cursor (rng e))) (N.of_nat 4)).
    unfold k. lia. }
  destruct (lookup_lt_is_Some_2 [(0, -1); (1, 0); (0, 1); (-1, 0)] (N.to_nat k))
    as [d Hd]; [exact Hk|].
  rewrite Hd. exists d. split; [|reflexivity].
  apply list_elem_of_lookup. eauto.
Qed.

(** Resampling keeps the direction or draws one of the four; it uses one or
    two draws and leaves the tape and the game alone. *)
Lemma maybe_turn_full (s : Snake.t) (e : Env) :
  exists d' n,
    (d' = Snake.direction s \/ d' ∈ directions) /\
    (n = 1 \/ n = 2)%nat /\
    maybe_turn (s, e) = Ret tt (Snake.set_direction d' s, set_rng (rng_skip n (rng e)) e).
Proof.
  unfold maybe_turn, bind at 1. cbn -[Qle_bool directions random_choice].
  destruct (negb _).
  - unfold bind, in_env, zoom. cbn -[directions random_choice].
    destruct (random_choice_directions_in (set_rng (rng_next (rng e)) e))
      as (d' & Hin & ->).
    exists d', 2%nat. split; [right; exact Hin|]. split; [right; reflexivity|].
    reflexivity.
  - exists (Snake.direction s), 1%nat. split; [left; reflexivity|].
    split; [left; reflexivity|]. destruct s. reflexivity.
Qed.

(** The egg test of [advance], as [is_egg] sees it. *)
Lemma advance_full (s : Snake.t) (e : Env) (hd : Position) (tl : list Position) :
  Snake.body s = hd :: tl ->
  let nh := step_from hd (Snake.direction s) in
  let w := world_cell (game e) nh in
  let lg' := if is_egg w && (Snake.length s <? Snake.max_length s)
             then Snake.length s + 1 else Snake.length s in
  let g' := if is_egg w then claim_egg w (game e) else game e in
  advance (s, e) =
    trim_tail (Datatypes.S (Datatypes.S (length (Snake.body s))))
      (Snake.set_body (nh :: Snake.body s) (Snake.set_length lg' s), set_game g' e).
Proof.
  intros Hb. cbn zeta.
  unfold advance, bind at 1. cbn -[trim_tail Z.add String.eqb chr location_id].
  rewrite Hb. destruct hd as [hx hy]. cbn -[trim_tail Z.add String.eqb chr location_id].
  destruct (Snake.direction s) as [dx dy] eqn:Hd.
  cbn -[trim_tail Z.add String.eqb chr location_id].
  unfold bind at 1. unfold is_egg, world_cell, step_from.
  cbn [fst snd]. unfold location_id.
  destruct (String.eqb _ _).
  - unfold eat_egg, bind. cbn -[trim_tail Z.add Z.ltb].
    destruct (Snake.length s <? Snake.max_length s); cbn -[trim_tail Z.add];
      rewrite Hb.
    + reflexivity.
    + destruct s. reflexivity.
  - cbn -[trim_tail Z.add]. rewrite Hb. destruct s, e. reflexivity.
Qed.

(** A due update on a snake with a head, in full: the direction drawn, the
    egg met or not, the body cut. *)
Lemma Snake_update_full (dt : Q) (s : Snake.t) (e : Env) (hd : Position)
    (tl : list Position) :
  Qle_bool (Snake.time_to_move s - dt) 0 = true ->
  Snake.body s = hd :: tl ->
  exists d' n,
    (d' = Snake.direction s \/ d' ∈ directions) /\
    (n = 1 \/ n = 2)%nat /\
    let nh := step_from hd d' in
    let w := world_cell (game e) nh in
    let lg' := if is_egg w && (Snake.length s <? Snake.max_length s)
               then Snake.length s + 1 else Snake.length s in
    let e' := {| game := if is_egg w then claim_egg w (game e) else game e;
                 rng := rng_skip n (rng e) |} in
    let moved b :=
      Snake.mk (Snake.x s) (Snake.y s) lg' (Snake.max_length s) b d'
               (Snake.move_interval s) (Snake.move_interval s) (Snake.rattles s) in
    Snake_update dt (s, e) =
      if 0 <=? lg' + Snake.rattles s
      then Ret tt (moved (take (Z.to_nat (lg' + Snake.rattles s)) (nh :: Snake.body s)), e')
      else Raise IndexError (moved [], e').
Proof.
  intros Ht Hb. rewrite (Snake_update_due _ _ _ Ht).
  unfold move, bind at 1. cbn -[maybe_turn advance]. unfold bind at 1.
  destruct (maybe_turn_full
              (Snake.set_time_to_move (Snake.move_interval s)
                 (Snake.set_time_to_move (Snake.time_to_move s - dt)%Q s)) e)
    as (d' & n & Hd & Hn & Hturn).
  cbn [Snake.move_interval Snake.set_time_to_move] in Hturn |- *.
  rewrite Hturn.
  exists d', n. split; [exact Hd|]. split; [exact Hn|]. cbn zeta.
  rewrite (advance_full _ _ hd tl) by (cbn; exact Hb).
  cbn zeta. rewrite trim_tail_spec by (cbn; lia).
  destruct s. cbn in Hb. subst. reflexivity.
Qed.




(** X1.  A due update of a snake without a body raises [IndexError] at
    [self.body[0]]: the timer is reset and random draws are spent, but the
    body stays empty and length, rattles and the game are untouched. *)
Theorem update_headless (dt : Q) (s : Snake.t) (e : Env) :
  Qle_bool (Snake.time_to_move s - dt) 0 = true ->
  Snake.body s = [] ->
  exists s' e',
    Snake_update dt (s, e) = Raise IndexError (s', e') /\
    Snake.body s' = [] /\ Snake.length s' = Snake.length s /\
    Snake.rattles s' = Snake.rattles s /\
    Snake.time_to_move s' = Snake.move_interval s /\
    game e' = game e.
Proof.
  intros Ht Hb. rewrite (Snake_update_due _ _ _ Ht).
  destruct (move_run (Snake.set_time_to_move (Snake.time_to_move s - dt)%Q s) e)
    as (d' & r' & ->).
  rewrite advance_empty by (cbn; exact Hb).
  eexists _, _. split; [reflexivity|]. cbn. auto.
Qed.

(** X2.  A due update of a snake with a head returns exactly when
    [length + rattles], after a possible growth, is not negative; otherwise
    the trim loop pops the whole body and raises [IndexError] on the empty
    list.  [length + rattles < -1] before the update is enough for that. *)
Theorem update_starved (dt : Q) (s : Snake.t) (e : Env) :
  Qle_bool (Snake.time_to_move s - dt) 0 = true ->
  Snake.body s <> [] ->
  let o := Snake_update dt (s, e) in
  let s' := (final_state o).1 in
  (0 <= Snake.length s' + Snake.rattles s' <-> exists e', o = Ret tt (s', e')) /\
  (Snake.length s' + Snake.rattles s' < 0 ->
   Snake.body s' = [] /\ exists e', o = Raise IndexError (s', e')) /\
  (Snake.length s + Snake.rattles s < -1 ->
   Snake.length s' + Snake.rattles s' < 0).
Proof.
  intros Ht Hb. destruct (Snake.body s) as [|hd tl] eqn:Hbody; [congruence|].
  destruct (Snake_update_full dt s e hd tl Ht Hbody) as (d' & n & _ & _ & Hrun).
  cbn zeta in Hrun |- *. rewrite Hrun. clear Hrun.
  set (lg' := if is_egg _ && _ then _ else _).
  assert (Hlg : lg' <= Snake.length s + 1) by (unfold lg'; destruct (_ && _); lia).
  destruct (Z.leb_spec 0 (lg' + Snake.rattles s)) as [Hnn|Hneg];
    cbn [final_state fst Snake.length Snake.rattles Snake.body].
  - split; [split; [eauto|intros _; exact Hnn]|]. split; intros; lia.
  - split; [split; [lia|intros [e' Heq]; discriminate Heq]|].
    split; [eauto|intros _; exact Hneg].
Qed.

Lemma Snake_update_sound (dt : Q) (s : Snake.t) (e : Env) :
  sound s ->
  exists s' e',
    Snake_update dt (s, e) = Ret tt (s', e') /\
    sound s' /\
    (Snake.direction s ∈ directions -> Snake.direction s' ∈ directions).
Proof.
  intros [Hne Hlen].
  destruct (Qle_bool (Snake.time_to_move s - dt) 0) eqn:Ht.
  - destruct (Snake.body s) as [|hd tl] eqn:Hb; [congruence|].
    destruct (Snake_update_full dt s e hd tl Ht Hb) as (d' & n & Hd & _ & ->).
    cbn zeta.
    set (lg' := if is_egg _ && _ then _ else _).
    assert (Hlg : Snake.length s <= lg') by (unfold lg'; destruct (_ && _); lia).
    unfold len in Hlen. cbn [length] in Hlen.
    destruct (Z.leb_spec 0 (lg' + Snake.rattles s)) as [Hnn|Hneg]; [|lia].
    eexists _, _. split; [reflexivity|]. split.
    + split; cbn [Snake.body Snake.length Snake.rattles].
      * destruct (Z.to_nat (lg' + Snake.rattles s)) eqn:Hz; [lia|]. cbn. discriminate.
      * unfold len. rewrite length_take. lia.
    + cbn [Snake.direction]. destruct Hd as [->|Hin]; auto.
  - rewrite (Snake_update_idle _ _ _ Ht).
    eexists _, _. split; [reflexivity|]. split; [split; assumption|auto].
Qed.

(** X3.  An update never raises on a sound snake and leaves it sound; a
    direction that is one of the four unit vectors stays one, the rattles
    are untouched and [length] grows by one at most. *)
Theorem update_keeps_sound (dt : Q) (s : Snake.t) (e : Env) :
  sound s ->
  exists s' e',
    Snake_update dt (s, e) = Ret tt (s', e') /\
    sound s' /\
    (Snake.direction s ∈ directions -> Snake.direction s' ∈ directions) /\
    Snake.rattles s' = Snake.rattles s /\
    Snake.length s <= Snake.length s' <= Snake.length s + 1.
Proof.
  intros Hsound.
  destruct (Snake_update_sound dt s e Hsound) as (s' & e' & Hrun & Hs' & Hdir).
  pose proof (Snake_update_length dt s e) as Hfields.
  cbn zeta in Hfields. rewrite Hrun in Hfields. cbn [final_state fst] in Hfields.
  exists s', e'. split; [exact Hrun|]. split; [exact Hs'|]. split; [exact Hdir|].
  destruct Hfields as (_ & Hr & Hlg). split; [exact Hr|lia].
Qed.

(** X4.  A due update of a sound snake whose direction is a unit vector
    puts the new head one step from the old one and keeps, behind it, the
    first [length + rattles - 1] segments of the old body; the timer is back
    at [move_interval]. *)
Theorem update_step_shape (dt : Q) (s : Snake.t) (e : Env) (hd : Position) :
  Qle_bool (Snake.time_to_move s - dt) 0 = true ->
  sound s ->
  Snake.direction s ∈ directions ->
  py_head (Snake.body s) = Some hd ->
  exists s' e' nh,
    Snake_update dt (s, e) = Ret tt (s', e') /\
    nh = step_from hd (Snake.direction s') /\
    Z.abs (nh.1 - hd.1) + Z.abs (nh.2 - hd.2) = 1 /\
    Snake.body s' =
      nh :: take (Z.to_nat (Snake.length s' + Snake.rattles s' - 1)) (Snake.body s) /\
    Snake.time_to_move s' = Snake.move_interval s.
Proof.
  intros Ht [Hne Hlen] Hdir Hhd.
  destruct (Snake.body s) as [|hd0 tl] eqn:Hb; [congruence|].
  injection Hhd as ->.
  destruct (Snake_update_full dt s e hd tl Ht Hb) as (d' & n & Hd & _ & ->).
  cbn zeta.
  set (lg' := if is_egg _ && _ then _ else _).
  assert (Hlg : Snake.length s <= lg') by (unfold lg'; destruct (_ && _); lia).
  unfold len in Hlen. cbn [length] in Hlen.
  destruct (Z.leb_spec 0 (lg' + Snake.rattles s)) as [Hnn|Hneg]; [|lia].
  assert (Hd' : d' ∈ directions) by (destruct Hd as [->|Hin]; assumption).
  eexists _, _, _. split; [reflexivity|].
  cbn [Snake.body Snake.length Snake.rattles Snake.direction Snake.time_to_move].
  split; [reflexivity|]. split; [|split; [|reflexivity]].
  - unfold step_from. cbn [fst snd]. unfold directions in Hd'.
    repeat (apply elem_of_cons in Hd' as [->|Hd']); cbn [fst snd]; try lia.
    apply elem_of_nil in Hd'. contradiction.
  - replace (Z.to_nat (lg' + Snake.rattles s))
      with (Datatypes.S (Z.to_nat (lg' + Snake.rattles s - 1))) by lia.
    rewrite ?Hb. reflexivity.
Qed.

(** X5.  What a due update does to the game and to [length] is decided by
    the world cell under the new head: on an egg, the cell is filed in
    [spaces] under the digest of its coordinates, one save is requested and
    [length] grows by one below [max_length]; elsewhere the game and
    [length] are as before.  This holds also when the update raises in the
    trim loop. *)
Theorem update_egg_effect (dt : Q) (s : Snake.t) (e : Env) (hd : Position) :
  Qle_bool (Snake.time_to_move s - dt) 0 = true ->
  py_head (Snake.body s) = Some hd ->
  let st' := final_state (Snake_update dt (s, e)) in
  let w := world_cell (game e) (step_from hd (Snake.direction st'.1)) in
  if is_egg w then
    game st'.2 = claim_egg w (game e) /\
    Snake.length st'.1 =
      (if Snake.length s <? Snake.max_length s then Snake.length s + 1
       else Snake.length s)
  else
    game st'.2 = game e /\ Snake.length st'.1 = Snake.length s.
Proof.
  intros Ht Hhd. destruct (Snake.body s) as [|hd0 tl] eqn:Hb; [discriminate|].
  injection Hhd as ->.
  destruct (Snake_update_full dt s e hd tl Ht Hb) as (d' & n & _ & _ & ->).
  cbn zeta.
  destruct (0 <=? _); cbn [final_state fst snd Snake.direction Snake.length game];
    destruct (is_egg _); cbn [andb]; auto.
Qed.

End Snake_more.

Section Bite_more.
Context `{Host}.

Lemma bitten_refl (s : Snake.t) : bitten s s.
Proof. unfold bitten. repeat split; try reflexivity; lia. Qed.

Lemma bitten_trans (s0 s1 s2 : Snake.t) : bitten s0 s1 -> bitten s1 s2 -> bitten s0 s2.
Proof.
  unfold bitten.
  intros (Hh & Hs & Hm & Hr & Hd & ? & ? & ? & ? & ? & ?)
         (Hh' & Hs' & Hm' & Hr' & Hd' & ? & ? & ? & ? & ? & ?).
  repeat split; try congruence; try lia.
  etransitivity; eassumption.
Qed.

Lemma bitten_add_rattles (s : Snake.t) : bitten s (add_rattles s).
Proof. unfold bitten, add_rattles. cbn. repeat split; try reflexivity; lia. Qed.

Lemma bitten_middle (s : Snake.t) :
  3 < len (Snake.body s) ->
  bitten s (lose_length
              (Snake.set_body (delete (middle_index (Snake.body s)) (Snake.body s)) s)).
Proof.
  intros Hlen. destruct (middle_index_bounds _ Hlen) as [[Hge Hlt] _].
  assert (Hdel : length (delete (middle_index (Snake.body s)) (Snake.body s))
                 = (length (Snake.body s) - 1)%nat).
  { apply length_delete, lookup_lt_is_Some_2. exact Hlt. }
  unfold bitten, lose_length, len in *.
  cbn [Snake.body Snake.length Snake.rattles Snake.set_body Snake.set_length
       Snake.x Snake.y Snake.max_length Snake.direction Snake.time_to_move
       Snake.move_interval].
  rewrite Hdel.
  repeat split; try reflexivity; try lia.
  - unfold py_head. apply list_lookup_delete_lt. lia.
  - apply sublist_delete.
Qed.

(** [bite] returns on every pair of references, in one of two ways. *)
Lemma Snake_bite_cases (i j : nat) (l : list Snake.t) (e : Env) :
  (exists B B0,
     l !! j = Some B /\ alter add_rattles i l !! j = Some B0 /\
     Snake.body B0 = Snake.body B /\ 3 < len (Snake.body B) /\
     Snake_bite i j (l, e) =
       Ret true
         (alter (fun o => lose_length
                   (Snake.set_body (delete (middle_index (Snake.body o)) (Snake.body o)) o))
                j (alter add_rattles i l),
          set_message bite_text 2 e)) \/
  ((forall B, l !! j = Some B -> len (Snake.body B) <= 3) /\
   Snake_bite i j (l, e) = Ret false (alter add_rattles i l, e)).
Proof.
  destruct (l !! j) as [B|] eqn:HB.
  - destruct (Z.le_gt_cases (len (Snake.body B)) 3) as [Hle|Hgt].
    + right. split; [intros B' [= <-]; exact Hle|].
      apply (Snake_bite_short i j l e B HB Hle).
    + left. destruct (lookup_add_rattles i j l B HB) as (B0 & HB0 & Hbody & _).
      exists B, B0. split; [reflexivity|]. split; [exact HB0|]. split; [exact Hbody|].
      split; [lia|].
      rewrite (Snake_bite_long i j l e B HB) by lia.
      rewrite list_alter_alter_eq. do 2 f_equal.
      apply list_eq. intros k.
      destruct (decide (j = k)) as [<-|Hjk].
      * rewrite !list_lookup_alter_eq, HB0. cbn. rewrite Hbody. reflexivity.
      * rewrite !(list_lookup_alter_ne _ _ j k) by exact Hjk. reflexivity.
  - right. split; [intros B' [=]|].
    assert (Hnone : alter add_rattles i l !! j = None).
    { rewrite list_lookup_alter. destruct (decide (i = j)) as [->|_];
        rewrite HB; reflexivity. }
    unfold Snake_bite, bind. cbn -[alter Z.add]. fold add_rattles.
    rewrite Hnone. reflexivity.
Qed.

(** What one call of [bite] does to the store and the environment. *)
Lemma Snake_bite_bitten (i j : nat) (l : list Snake.t) (e : Env) :
  exists b l' e',
    Snake_bite i j (l, e) = Ret b (l', e') /\
    Forall2 bitten l l' /\ same_world e e' /\
    (forall k, k <> i -> k <> j -> l' !! k = l !! k).
Proof.
  assert (Hstep1 : Forall2 bitten l (alter add_rattles i l)).
  { apply Forall2_alter_r; [apply Forall_Forall2_diag, Forall_forall;
                            intros; apply bitten_refl|].
    intros x y _ _ Hxy. eapply bitten_trans; [exact Hxy|apply bitten_add_rattles]. }
  destruct (Snake_bite_cases i j l e)
    as [(B & B0 & HB & HB0 & Hbody & Hlen & ->)|[_ ->]].
  - eexists _, _, _. split; [reflexivity|]. split; [|split].
    + apply Forall2_alter_r; [exact Hstep1|].
      intros x y _ Hy Hxy. rewrite HB0 in Hy. injection Hy as <-.
      eapply bitten_trans; [exact Hxy|]. apply bitten_middle. rewrite Hbody. exact Hlen.
    + unfold same_world. cbn. auto.
    + intros k Hki Hkj. rewrite !list_lookup_alter_ne by auto. reflexivity.
  - eexists _, _, _. split; [reflexivity|]. split; [exact Hstep1|]. split.
    + unfold same_world. auto.
    + intros k Hki _. rewrite list_lookup_alter_ne by auto. reflexivity.
Qed.

(** X6.  [bite] never raises, whatever the two references: it keeps every
    snake's head, never takes a body of three or more segments below three,
    changes no snake other than the two, and leaves the random state, the
    world origin and the store of spaces alone. *)
Theorem bite_frame (i j : nat) (l : list Snake.t) (e : Env) :
  exists b l' e',
    Snake_bite i j (l, e) = Ret b (l', e') /\
    length l' = length l /\
    (forall k s, l !! k = Some s ->
       exists s', l' !! k = Some s' /\
         py_head (Snake.body s') = py_head (Snake.body s) /\
         Z.min 3 (len (Snake.body s)) <= len (Snake.body s') /\
         (k <> i -> k <> j -> s' = s)) /\
    rng e' = rng e /\ spaces (game e') = spaces (game e) /\
    world_x (game e') = world_x (game e) /\ world_y (game e') = world_y (game e).
Proof.
  destruct (Snake_bite_bitten i j l e) as (b & l' & e' & Hrun & Hall & Hworld & Hother).
  exists b, l', e'. split; [exact Hrun|].
  split; [symmetry; eapply Forall2_length, Hall|]. split.
  - intros k s Hk. destruct (Forall2_lookup_l _ _ _ _ _ Hall Hk) as (s' & Hk' & Hb).
    exists s'. split; [exact Hk'|].
    destruct Hb as (Hh & _ & Hm & _). split; [exact Hh|]. split; [exact Hm|].
    intros Hki Hkj. rewrite (Hother k Hki Hkj), Hk in Hk'. congruence.
  - destruct Hworld as (? & ? & ? & ? & ?). auto.
Qed.

End Bite_more.

Section Pass_more.
Context `{Host}.

Lemma scan_segments_returns (I : list Snake.t * Env -> Prop) (Φ : BiteEvent -> Prop)
    (i j : nat) (head1 : Position) (segments : list Position) :
  returns I (Snake_bite i j) (fun _ st => I st) ->
  (forall b, Φ (i, j, b)) ->
  returns I (scan_segments i j head1 segments) (fun es st => I st /\ Forall Φ es).
Proof.
  intros Hbite HΦ. induction segments as [|segment rest IH]; cbn [scan_segments].
  - intros st Hst. exists [], st. split; [reflexivity|]. split; [exact Hst|constructor].
  - destruct (decide (head1 = segment)); [|exact IH].
    intros st Hst. destruct (Hbite st Hst) as (b & st' & Hrun & Hst').
    exists [(i, j, b)], st'. unfold bind. rewrite Hrun.
    split; [reflexivity|]. split; [exact Hst'|]. repeat constructor. apply HΦ.
Qed.

Lemma collide_pair_returns (I : list Snake.t * Env -> Prop) (n i j : nat)
    (head1 : Position) :
  (i < n)%nat -> (j < n)%nat ->
  (i <> j -> returns I (Snake_bite i j) (fun _ st => I st)) ->
  returns I (collide_pair i head1 j) (fun es st => I st /\ Forall (pair_event n) es).
Proof.
  intros Hi Hj Hbite st Hst. unfold collide_pair, bind. cbn [get].
  destruct (st.1 !! j) as [snake2|];
    [|exists [], st; split; [reflexivity|split; [exact Hst|constructor]]].
  destruct (Nat.eqb_spec i j) as [Heq|Hne]; cbn [orb];
    [exists [], st; split; [reflexivity|split; [exact Hst|constructor]]|].
  destruct (len (Snake.body snake2) <? 2);
    [exists [], st; split; [reflexivity|split; [exact Hst|constructor]]|].
  apply (scan_segments_returns I (pair_event n)); [apply Hbite, Hne| |exact Hst].
  intros b. unfold pair_event. cbn. auto.
Qed.

Lemma collide_from_returns (I : list Snake.t * Env -> Prop) (n i : nat) :
  (i < n)%nat ->
  (forall j, (j < n)%nat -> i <> j -> returns I (Snake_bite i j) (fun _ st => I st)) ->
  returns I (collide_from n i) (fun es st => I st /\ Forall (pair_event n) es).
Proof.
  intros Hi Hbite st Hst. unfold collide_from, bind. cbn [get].
  destruct (st.1 !! i) as [snake1|];
    [|exists [], st; split; [reflexivity|split; [exact Hst|constructor]]].
  destruct (Snake.body snake1) as [|head1 rest] eqn:Hb.
  - exists [], st. split; [reflexivity|split; [exact Hst|constructor]].
  - replace (len (head1 :: rest) =? 0) with false
      by (symmetry; apply Z.eqb_neq; unfold len; cbn [length]; lia).
    change (py_head (head1 :: rest)) with (Some head1). cbv iota.
    apply (returns_for I (pair_event n)); [|exact Hst].
    intros j Hj. apply elem_of_seq in Hj.
    apply collide_pair_returns; [exact Hi|lia|apply Hbite; lia].
Qed.

(** The loop of the pass returns and keeps whatever every [bite] between
    two different snakes of the list keeps. *)
Lemma collisions_returns (I : list Snake.t * Env -> Prop) (n : nat) :
  (forall i j, (i < n)%nat -> (j < n)%nat -> i <> j ->
     returns I (Snake_bite i j) (fun _ st => I st)) ->
  returns I (for_ (seq 0 n) (collide_from n))
            (fun es st => I st /\ Forall (pair_event n) es).
Proof.
  intros Hbite. apply returns_for. intros i Hi. apply elem_of_seq in Hi.
  apply collide_from_returns; [lia|]. intros j Hj Hne. apply Hbite; [lia|exact Hj|exact Hne].
Qed.

Lemma same_world_refl (e : Env) : same_world e e.
Proof. unfold same_world. auto. Qed.

Lemma same_world_trans (e0 e1 e2 : Env) :
  same_world e0 e1 -> same_world e1 e2 -> same_world e0 e2.
Proof.
  unfold same_world. intros (? & ? & ? & ? & ?) (? & ? & ? & ? & ?).
  repeat split; congruence.
Qed.

Lemma Forall2_bitten_refl (l : list Snake.t) : Forall2 bitten l l.
Proof. apply Forall_Forall2_diag, Forall_forall. intros; apply bitten_refl. Qed.

Lemma Forall2_bitten_trans (l0 l1 l2 : list Snake.t) :
  Forall2 bitten l0 l1 -> Forall2 bitten l1 l2 -> Forall2 bitten l0 l2.
Proof.
  intros H01. revert l2. induction H01 as [|s0 s1 l0 l1 Hs Hl IH]; intros l2 H12.
  - inversion H12. constructor.
  - inversion H12 as [|s1' s2 l1' l2' Hs' Hl']; subst.
    constructor; [eapply bitten_trans; eassumption|apply IH, Hl'].
Qed.

Lemma check_snake_collisions_run (p : SnakePlugin.t) (e : Env) :
  exists log l' e',
    check_snake_collisions (p, e) = Ret log (SnakePlugin.set_snakes l' p, e') /\
    Forall2 bitten (SnakePlugin.snakes p) l' /\
    same_world e e' /\
    Forall (pair_event (length (SnakePlugin.snakes p))) log.
Proof.
  set (l0 := SnakePlugin.snakes p).
  destruct (collisions_returns
              (fun st => Forall2 bitten l0 st.1 /\ same_world e st.2) (length l0))
    with (s := (l0, e)) as (log & [l' e'] & Hrun & [Hall Hworld] & Hlog).
  - intros i j _ _ _ [l1 e1] [Hall1 Hworld1]. cbn [fst snd] in *.
    destruct (Snake_bite_bitten i j l1 e1) as (b & l2 & e2 & Hrun & Hall2 & Hworld2 & _).
    exists b, (l2, e2). split; [exact Hrun|]. cbn [fst snd]. split.
    + eapply Forall2_bitten_trans; eassumption.
    + eapply same_world_trans; eassumption.
  - split; [apply Forall2_bitten_refl|apply same_world_refl].
  - exists log, l', e'. unfold check_snake_collisions, in_snakes, zoom, bind.
    cbn [get fst snd]. fold l0. rewrite Hrun. cbn [fst snd] in *. auto.
Qed.

(** X7.  The collision pass never raises, on any state.  It keeps every
    snake in its place with its head, takes from a body only segments behind
    the head and never below three, lowers [length] by as much, never lowers
    rattles, and touches nothing of the plugin but the snakes and nothing of
    the environment but the message.  Every bite it makes is between two
    different snakes of the list. *)
Theorem collisions_frame (p : SnakePlugin.t) (e : Env) :
  exists log l' e',
    check_snake_collisions (p, e) = Ret log (SnakePlugin.set_snakes l' p, e') /\
    length l' = length (SnakePlugin.snakes p) /\
    Forall2 bitten (SnakePlugin.snakes p) l' /\
    same_world e e' /\
    Forall (pair_event (length (SnakePlugin.snakes p))) log.
Proof.
  destruct (check_snake_collisions_run p e) as (log & l' & e' & Hrun & Hall & Hw & Hlog).
  exists log, l', e'. split; [exact Hrun|].
  split; [symmetry; eapply Forall2_length, Hall|]. auto.
Qed.

End Pass_more.

Section Pass_accounts.
Context `{Host}.

Lemma for_noop {S X E} (xs : list X) (f : X -> M S (list E)) (s : S) :
  (forall x, x ∈ xs -> f x s = Ret [] s) -> for_ xs f s = Ret [] s.
Proof.
  induction xs as [|x xs IH]; intros Hf; [reflexivity|].
  cbn [for_]. unfold bind. rewrite (Hf x) by left.
  rewrite IH by (intros y Hy; apply Hf; right; exact Hy). reflexivity.
Qed.

(** X8.  When no snake has its head on a non-head segment of another, the
    collision pass makes no bite and changes nothing. *)
Theorem collisions_without_overlap (p : SnakePlugin.t) (e : Env) :
  (forall i j A B hA,
     i <> j ->
     SnakePlugin.snakes p !! i = Some A -> SnakePlugin.snakes p !! j = Some B ->
     py_head (Snake.body A) = Some hA -> hA ∉ drop 1 (Snake.body B)) ->
  check_snake_collisions (p, e) = Ret [] (p, e).
Proof.
  intros Hfree. unfold check_snake_collisions, in_snakes, zoom, bind. cbn [get fst snd].
  rewrite for_noop; [destruct p; reflexivity|].
  intros i _. unfold collide_from, bind. cbn [get fst].
  destruct (SnakePlugin.snakes p !! i) as [snake1|] eqn:Hi; [|reflexivity].
  destruct (Snake.body snake1) as [|head1 rest] eqn:Hb; [reflexivity|].
  replace (len (head1 :: rest) =? 0) with false
    by (symmetry; apply Z.eqb_neq; unfold len; cbn [length]; lia).
  change (py_head (head1 :: rest)) with (Some head1). cbv iota.
  apply for_noop. intros j _. unfold collide_pair, bind. cbn [get fst].
  destruct (SnakePlugin.snakes p !! j) as [snake2|] eqn:Hj; [|reflexivity].
  destruct (Nat.eqb_spec i j) as [Heq|Hne]; cbn [orb]; [reflexivity|].
  destruct (len (Snake.body snake2) <? 2); [reflexivity|].
  apply scan_segments_miss.
  apply (Hfree i j snake1 snake2 head1 Hne Hi Hj). rewrite Hb. reflexivity.
Qed.

Lemma total_alter (f : Snake.t -> Z) (g : Snake.t -> Snake.t) (l : list Snake.t)
    (i : nat) (s : Snake.t) :
  l !! i = Some s -> total f (alter g i l) = total f l - f s + f (g s).
Proof.
  unfold total. revert i. induction l as [|a l IH]; intros i Hi; [discriminate|].
  destruct i as [|i]; cbn in Hi |- *.
  - injection Hi as ->. lia.
  - rewrite (IH i Hi). lia.
Qed.

Lemma successes_app (log es : list BiteEvent) :
  successes (log ++ es) = successes log + successes es.
Proof. unfold successes, len. rewrite filter_app, length_app. lia. Qed.

Lemma Snake_bite_books (R B L : Z) (n i j : nat) (log : list BiteEvent)
    (st : list Snake.t * Env) :
  (i < n)%nat ->
  books R B L n log st ->
  exists b st', Snake_bite i j st = Ret b st' /\ books R B L n (log ++ [(i, j, b)]) st'.
Proof.
  intros Hi (Hn & HR & HB & HL). destruct st as [l e]. cbn [fst] in *.
  destruct (lookup_lt_is_Some_2 l i ltac:(lia)) as [A HA].
  assert (HR1 : total Snake.rattles (alter add_rattles i l) = total Snake.rattles l + 2).
  { rewrite (total_alter _ _ _ _ _ HA). cbn. lia. }
  assert (HB1 : total (fun s => len (Snake.body s)) (alter add_rattles i l)
                = total (fun s => len (Snake.body s)) l).
  { rewrite (total_alter _ _ _ _ _ HA). cbn. lia. }
  assert (HL1 : total Snake.length (alter add_rattles i l) = total Snake.length l).
  { rewrite (total_alter _ _ _ _ _ HA). cbn. lia. }
  assert (Hlog : len (log ++ [(i, j, true)]) = len log + 1
                 /\ len (log ++ [(i, j, false)]) = len log + 1).
  { unfold len. rewrite !length_app. cbn. lia. }
  destruct (Snake_bite_cases i j l e)
    as [(Bs & B0 & HBs & HB0 & Hbody & Hlen & ->)|[_ ->]].
  - eexists _, _. split; [reflexivity|]. unfold books. cbn [fst].
    rewrite !length_alter, !(total_alter _ _ _ _ _ HB0), successes_app.
    destruct (middle_index_bounds _ Hlen) as [[_ Hlt] _]. rewrite <- Hbody in Hlt, Hlen.
    assert (Hdel : len (delete (middle_index (Snake.body B0)) (Snake.body B0))
                   = len (Snake.body B0) - 1).
    { unfold len in *. rewrite length_delete by (apply lookup_lt_is_Some_2; exact Hlt).
      lia. }
    cbn [Snake.rattles Snake.length Snake.body lose_length Snake.set_length
         Snake.set_body].
    rewrite Hdel. destruct Hlog as [Hlog _]. rewrite Hlog.
    change (successes [(i, j, true)]) with 1. lia.
  - eexists _, _. split; [reflexivity|]. unfold books. cbn [fst].
    rewrite length_alter, successes_app. destruct Hlog as [_ Hlog]. rewrite Hlog.
    change (successes [(i, j, false)]) with 0. lia.
Qed.

Lemma books_more (R B L : Z) (n : nat) (log : list BiteEvent)
    (st : list Snake.t * Env) :
  books R B L n log st -> books R B L n (log ++ []) st.
Proof. rewrite app_nil_r. auto. Qed.

Lemma collide_pair_books (R B L : Z) (n i j : nat) (head1 : Position)
    (log : list BiteEvent) (st : list Snake.t * Env) :
  (i < n)%nat ->
  books R B L n log st ->
  exists es st', collide_pair i head1 j st = Ret es st' /\ books R B L n (log ++ es) st'.
Proof.
  intros Hi Hbooks. unfold collide_pair, bind. cbn [get].
  destruct (st.1 !! j) as [snake2|];
    [|exists [], st; split; [reflexivity|apply books_more, Hbooks]].
  destruct ((i =? j)%nat || (len (Snake.body snake2) <? 2));
    [exists [], st; split; [reflexivity|apply books_more, Hbooks]|].
  induction (drop 1 (Snake.body snake2)) as [|segment rest IH]; cbn [scan_segments].
  - exists [], st. split; [reflexivity|apply books_more, Hbooks].
  - destruct (decide (head1 = segment)); [|exact IH].
    destruct (Snake_bite_books R B L n i j log st Hi Hbooks) as (b & st' & Hrun & Hb').
    exists [(i, j, b)], st'. unfold bind. rewrite Hrun. split; [reflexivity|exact Hb'].
Qed.

Lemma collide_from_books (R B L : Z) (n i : nat) (log : list BiteEvent)
    (st : list Snake.t * Env) :
  (i < n)%nat ->
  books R B L n log st ->
  exists es st', collide_from n i st = Ret es st' /\ books R B L n (log ++ es) st'.
Proof.
  intros Hi Hbooks. unfold collide_from, bind. cbn [get].
  destruct (st.1 !! i) as [snake1|];
    [|exists [], st; split; [reflexivity|apply books_more, Hbooks]].
  destruct (Snake.body snake1) as [|head1 rest] eqn:Hb.
  - exists [], st. split; [reflexivity|apply books_more, Hbooks].
  - replace (len (head1 :: rest) =? 0) with false
      by (symmetry; apply Z.eqb_neq; unfold len; cbn [length]; lia).
    change (py_head (head1 :: rest)) with (Some head1). cbv iota.
    apply (for_seq_inv n (collide_pair i head1) (fun _ => books R B L n));
      [|exact Hbooks].
    intros j log' st' _ Hb'. apply collide_pair_books; assumption.
Qed.

(** X9.  The books of a collision pass: each call of [bite] adds two
    rattles, and each call that returns [True] removes one segment and one
    unit of [length]; nothing else changes these totals. *)
Theorem collisions_books (p : SnakePlugin.t) (e : Env) :
  exists log l' e',
    check_snake_collisions (p, e) = Ret log (SnakePlugin.set_snakes l' p, e') /\
    total Snake.rattles l' = total Snake.rattles (SnakePlugin.snakes p) + 2 * len log /\
    total (fun s => len (Snake.body s)) l' =
      total (fun s => len (Snake.body s)) (SnakePlugin.snakes p) - successes log /\
    total Snake.length l' = total Snake.length (SnakePlugin.snakes p) - successes log.
Proof.
  set (l0 := SnakePlugin.snakes p).
  destruct (for_seq_inv (length l0) (collide_from (length l0))
              (fun _ => books (total Snake.rattles l0)
                              (total (fun s => len (Snake.body s)) l0)
                              (total Snake.length l0) (length l0)))
    with (log0 := @nil BiteEvent) (s0 := (l0, e)) as (log & [l' e'] & Hrun & Hbooks).
  - intros i log st Hi Hb. apply collide_from_books; assumption.
  - unfold books. cbn [fst]. change (successes []) with 0.
    change (len (@nil BiteEvent)) with 0. repeat split; lia.
  - cbn [app] in Hbooks. destruct Hbooks as (_ & HR & HB & HL). cbn [fst] in *.
    exists log, l', e'. unfold check_snake_collisions, in_snakes, zoom, bind.
    cbn [get fst snd]. fold l0. rewrite Hrun. auto.
Qed.

End Pass_accounts.

Section Spawn_more.
Context `{Host}.

Lemma trial_offset_range (r : Rng) (k : nat) :
  -10 <= (trial_offset r k).1 <= 10 /\ -10 <= (trial_offset r k).2 <= 10.
Proof.
  unfold trial_offset. cbn [fst snd].
  pose proof (Z.mod_pos_bound (Z.of_N (tape r (2 * k + cursor r)%nat)) 21 ltac:(lia)).
  pose proof (Z.mod_pos_bound (Z.of_N (tape r (2 * k + 1 + cursor r)%nat)) 21 ltac:(lia)).
  lia.
Qed.

(** The trials of a spawn attempt: either all fail and only the tape has
    moved, or one snake has been built on a plant and appended. *)
Lemma spawn_trials_outcome (n : nat) (p : SnakePlugin.t) (e : Env) :
  exists b p' e',
    spawn_trials n (p, e) = Ret b (p', e') /\
    game e' = game e /\ tape (rng e') = tape (rng e) /\
    (b = false -> p' = p) /\
    (b = true ->
     exists snake,
       p' = SnakePlugin.set_snakes (SnakePlugin.snakes p ++ [snake]) p /\
       hatchling snake /\
       -10 <= Snake.x snake <= 10 /\ -10 <= Snake.y snake <= 10 /\
       is_plant (game e) (Snake.x snake, Snake.y snake) = true).
Proof.
  revert e. induction n as [|n IH]; intros e.
  - exists false, p, e. split; [reflexivity|]. split; [reflexivity|].
    split; [reflexivity|]. split; [reflexivity|discriminate].
  - rewrite spawn_trials_step. cbn zeta.
    destruct (is_plant (game e) (trial_offset (rng e) 0)) eqn:Hplant.
    + unfold bind, in_env, zoom, Snake_init, bind.
      destruct (random_choice_directions_in (set_rng (rng_skip 2 (rng e)) e))
        as (d & Hd & Hrun).
      cbn [snd]. rewrite Hrun.
      eexists true, _, _. split; [reflexivity|]. cbn [fst snd game rng set_rng rng_next
        rng_skip tape].
      split; [reflexivity|]. split; [reflexivity|]. split; [discriminate|].
      intros _. eexists. split; [reflexivity|].
      pose proof (trial_offset_range (rng e) 0) as [Hx Hy].
      split; [unfold hatchling; cbn; repeat split; auto|].
      cbn [Snake.x Snake.y]. split; [exact Hx|]. split; [exact Hy|].
      destruct (trial_offset (rng e) 0). exact Hplant.
    + destruct (IH (set_rng (rng_skip 2 (rng e)) e))
        as (b & p' & e' & Hrun & Hg & Ht & Hf & Hs).
      exists b, p', e'. split; [exact Hrun|].
      split; [exact Hg|]. split; [exact Ht|]. split; [exact Hf|exact Hs].
Qed.

Lemma try_spawn_snake_outcome (p : SnakePlugin.t) (e : Env) :
  exists b p' e',
    try_spawn_snake (p, e) = Ret b (p', e') /\
    game e' = game e /\ tape (rng e') = tape (rng e) /\
    (b = false -> p' = p) /\
    (b = true ->
     len (SnakePlugin.snakes p) < SnakePlugin.max_snakes p /\
     exists snake,
       p' = SnakePlugin.set_snakes (SnakePlugin.snakes p ++ [snake]) p /\
       hatchling snake /\
       -10 <= Snake.x snake <= 10 /\ -10 <= Snake.y snake <= 10 /\
       is_plant (game e) (Snake.x snake, Snake.y snake) = true).
Proof.
  unfold try_spawn_snake, bind. cbn -[spawn_trials Z.geb].
  destruct (Z.geb_spec (len (SnakePlugin.snakes p)) (SnakePlugin.max_snakes p))
    as [Hge|Hlt].
  - exists false, p, e. split; [reflexivity|]. split; [reflexivity|].
    split; [reflexivity|]. split; [reflexivity|discriminate].
  - destruct (spawn_trials_outcome 10 p e) as (b & p' & e' & Hrun & Hg & Ht & Hf & Hs).
    exists b, p', e'. split; [exact Hrun|].
    split; [exact Hg|]. split; [exact Ht|]. split; [exact Hf|].
    intros Hb. split; [exact Hlt|apply Hs, Hb].
Qed.

(** X10.  [try_spawn_snake] never raises and never touches the game.  When
    it returns [False] the plugin is as before.  When it returns [True] the
    population was below [max_snakes], and exactly one snake has been
    appended: a snake as the constructor builds it, at an offset within 10
    of the origin on both axes whose world cell holds a plant.  So a spawn
    never takes the population above [max_snakes]. *)
Theorem spawn_outcome (p : SnakePlugin.t) (e : Env) :
  exists b p' e',
    try_spawn_snake (p, e) = Ret b (p', e') /\
    game e' = game e /\ tape (rng e') = tape (rng e) /\
    (b = false -> p' = p) /\
    (b = true ->
     len (SnakePlugin.snakes p) < SnakePlugin.max_snakes p /\
     exists snake,
       p' = SnakePlugin.set_snakes (SnakePlugin.snakes p ++ [snake]) p /\
       hatchling snake /\
       -10 <= Snake.x snake <= 10 /\ -10 <= Snake.y snake <= 10 /\
       is_plant (game e) (Snake.x snake, Snake.y snake) = true) /\
    len (SnakePlugin.snakes p') <=
      Z.max (len (SnakePlugin.snakes p)) (SnakePlugin.max_snakes p).
Proof.
  destruct (try_spawn_snake_outcome p e) as (b & p' & e' & Hrun & Hg & Ht & Hf & Hs).
  exists b, p', e'. split; [exact Hrun|]. split; [exact Hg|]. split; [exact Ht|].
  split; [exact Hf|]. split; [exact Hs|].
  destruct b.
  - destruct (Hs eq_refl) as (Hlt & snake & -> & _). cbn [SnakePlugin.snakes
      SnakePlugin.set_snakes]. unfold len in *. rewrite length_app. cbn [length]. lia.
  - rewrite (Hf eq_refl). lia.
Qed.

End Spawn_more.

Section Plugin_keeps.
Context `{Host}.

(** A property of single snakes that the four things the plugin does to a
    snake keep: an update (which must return), two more rattles, the loss of
    the middle segment, and being built. *)
Variable Ψ : Snake.t -> Prop.
Hypothesis Ψ_update : forall dt s e, Ψ s ->
  exists s' e', Snake_update dt (s, e) = Ret tt (s', e') /\ Ψ s'.
Hypothesis Ψ_rattles : forall s, Ψ s -> Ψ (add_rattles s).
Hypothesis Ψ_middle : forall s, Ψ s -> 3 < len (Snake.body s) ->
  Ψ (lose_length (Snake.set_body (delete (middle_index (Snake.body s)) (Snake.body s)) s)).
Hypothesis Ψ_hatch : forall s, hatchling s -> Ψ s.

Lemma returns_get_then {S A} (I : S -> Prop) (Q : A -> S -> Prop) (k : S -> M S A) :
  (forall s0, returns I (k s0) Q) -> returns I (bind get k) Q.
Proof. intros Hk s Hs. unfold bind, get. apply Hk, Hs. Qed.

Lemma in_snake_keeps (i : nat) (dt : Q) :
  returns (fun st => Forall Ψ st.1) (in_snake i tt (Snake_update dt))
          (fun _ st => Forall Ψ st.1).
Proof.
  intros [l e] Hall. cbn [fst] in Hall. unfold in_snake, bind. cbn [get fst].
  destruct (l !! i) as [s|] eqn:Hi.
  - destruct (Ψ_update dt s e (proj1 (Forall_lookup _ _) Hall i s Hi))
      as (s' & e' & Hrun & Hs').
    unfold zoom. cbn [fst snd]. rewrite Hrun.
    eexists _, _. split; [reflexivity|]. cbn [fst].
    apply Forall_insert; assumption.
  - exists tt, (l, e). split; [reflexivity|exact Hall].
Qed.

Lemma Snake_bite_keeps (i j : nat) :
  returns (fun st => Forall Ψ st.1) (Snake_bite i j) (fun _ st => Forall Ψ st.1).
Proof.
  intros [l e] Hall. cbn [fst] in Hall.
  assert (Hstep : Forall Ψ (alter add_rattles i l)).
  { apply Forall_alter; [exact Hall|]. intros x _ Hx. apply Ψ_rattles, Hx. }
  destruct (Snake_bite_cases i j l e)
    as [(B & B0 & HB & HB0 & Hbody & Hlen & ->)|[_ ->]].
  - eexists _, _. split; [reflexivity|]. cbn [fst].
    apply Forall_alter; [exact Hstep|].
    intros y Hy Hpsi. rewrite HB0 in Hy. injection Hy as <-.
    apply Ψ_middle; [exact Hpsi|]. rewrite Hbody. exact Hlen.
  - eexists _, _. split; [reflexivity|exact Hstep].
Qed.

Lemma in_snakes_keeps {A} (m : M (list Snake.t * Env) A) :
  returns (fun st => Forall Ψ st.1) m (fun _ st => Forall Ψ st.1) ->
  returns (fun st => Forall Ψ (SnakePlugin.snakes st.1)) (in_snakes m)
          (fun _ st => Forall Ψ (SnakePlugin.snakes st.1)).
Proof.
  intros Hm. unfold in_snakes.
  apply (returns_zoom _ (fun st => Forall Ψ st.1) (fun _ st => Forall Ψ st.1));
    [exact Hm| |].
  - intros [p e] Hp. exact Hp.
  - intros [p e] a [l e'] _ Hl. exact Hl.
Qed.

Lemma try_spawn_snake_keeps :
  returns (fun st => Forall Ψ (SnakePlugin.snakes st.1)) try_spawn_snake
          (fun _ st => Forall Ψ (SnakePlugin.snakes st.1)).
Proof.
  intros [p e] Hall. cbn [fst] in Hall.
  destruct (try_spawn_snake_outcome p e) as (b & p' & e' & Hrun & _ & _ & Hf & Hs).
  exists b, (p', e'). split; [exact Hrun|]. cbn [fst]. destruct b.
  - destruct (Hs eq_refl) as (_ & snake & -> & Hhatch & _).
    cbn [SnakePlugin.snakes SnakePlugin.set_snakes].
    apply Forall_app. split; [exact Hall|]. repeat constructor. apply Ψ_hatch, Hhatch.
  - rewrite (Hf eq_refl). exact Hall.
Qed.

(** An update of the plugin returns and keeps [Ψ] of every snake. *)
Lemma SnakePlugin_update_keeps (dt : Q) :
  returns (fun st => Forall Ψ (SnakePlugin.snakes st.1)) (SnakePlugin_update dt)
          (fun _ st => Forall Ψ (SnakePlugin.snakes st.1)).
Proof.
  set (J := fun st : SnakePlugin.t * Env => Forall Ψ (SnakePlugin.snakes st.1)).
  unfold SnakePlugin_update.
  apply returns_get_then. intros st0.
  destruct (negb _); [apply (returns_ret J)|].
  apply (returns_bind J (fun _ => J)).
  { apply in_snakes_keeps. apply returns_foreach. intros i _. apply in_snake_keeps. }
  intros _. apply (returns_bind J (fun _ => J)).
  { unfold check_snake_collisions. apply in_snakes_keeps.
    apply returns_get_then. intros st.
    eapply returns_weaken; [apply (collisions_returns (fun st => Forall Ψ st.1))| |].
    - intros i j _ _ _. apply Snake_bite_keeps.
    - auto.
    - intros a s [Hs _]. exact Hs. }
  intros _. apply (returns_bind J (fun _ => J)).
  { apply returns_modify. intros [p e] Hp. exact Hp. }
  intros _. apply returns_get_then. intros st1.
  destruct (Qle_bool _ _); [|apply (returns_ret J)].
  apply (returns_bind J (fun _ => J)).
  { apply returns_modify. intros [p e] Hp. exact Hp. }
  intros _. apply (returns_bind J (fun _ => J)); [apply try_spawn_snake_keeps|].
  intros _. apply (returns_ret J).
Qed.

End Plugin_keeps.

Section Plugin_more.
Context `{Host}.

Lemma sound_add_rattles (s : Snake.t) : sound s -> sound (add_rattles s).
Proof. unfold sound, add_rattles. cbn. intros [Hne Hlen]. split; [exact Hne|lia]. Qed.

Lemma sound_middle (s : Snake.t) :
  sound s -> 3 < len (Snake.body s) ->
  sound (lose_length (Snake.set_body (delete (middle_index (Snake.body s)) (Snake.body s)) s)).
Proof.
  intros [Hne Hlen] Hlong. destruct (middle_index_bounds _ Hlong) as [[_ Hlt] _].
  assert (Hdel : length (delete (middle_index (Snake.body s)) (Snake.body s))
                 = (length (Snake.body s) - 1)%nat).
  { apply length_delete, lookup_lt_is_Some_2. exact Hlt. }
  unfold sound, lose_length, len in *.
  cbn [Snake.body Snake.length Snake.rattles Snake.set_body Snake.set_length].
  rewrite Hdel. split; [|lia].
  intros Hnil. rewrite Hnil in Hdel. cbn in Hdel. lia.
Qed.

Lemma hatchling_well_formed (s : Snake.t) : hatchling s -> well_formed s.
Proof.
  intros (Hb & Hl & Hr & Hm & Hd & _ & Hi).
  unfold well_formed, sound, paired. rewrite Hb, Hl, Hr. unfold len. cbn.
  split; [split; [discriminate|lia]|]. split; [split; [lia|reflexivity]|].
  split; [assumption|]. split; [lia|]. split; assumption.
Qed.

Lemma Snake_update_interval (dt : Q) (s : Snake.t) (e : Env) :
  Snake.move_interval (final_state (Snake_update dt (s, e))).1 = Snake.move_interval s.
Proof.
  destruct (Qle_bool (Snake.time_to_move s - dt) 0) eqn:Ht.
  - destruct (Snake.body s) as [|hd tl] eqn:Hb.
    + rewrite (Snake_update_due _ _ _ Ht).
      destruct (move_run (Snake.set_time_to_move (Snake.time_to_move s - dt)%Q s) e)
        as (d' & r' & ->).
      rewrite advance_empty by (cbn; exact Hb). reflexivity.
    + destruct (Snake_update_full dt s e hd tl Ht Hb) as (d' & n & _ & _ & ->).
      cbn zeta. destruct (0 <=? _); reflexivity.
  - rewrite (Snake_update_idle _ _ _ Ht). reflexivity.
Qed.

Lemma Snake_update_well_formed (dt : Q) (s : Snake.t) (e : Env) :
  well_formed s ->
  exists s' e', Snake_update dt (s, e) = Ret tt (s', e') /\ well_formed s'.
Proof.
  intros (Hsound & [Hr0 Hre] & Hmax & Hlen & Hdir & Hint).
  destruct (Snake_update_sound dt s e Hsound) as (s' & e' & Hrun & Hs' & Hd').
  pose proof (Snake_update_length dt s e) as Hf.
  pose proof (Snake_update_interval dt s e) as Hi.
  cbn zeta in Hf. rewrite Hrun in Hf, Hi. cbn [final_state fst] in Hf, Hi.
  destruct Hf as (Hm' & Hr' & Hl').
  exists s', e'. split; [exact Hrun|].
  unfold well_formed, paired. rewrite Hr', Hm', Hi.
  split; [exact Hs'|]. split; [split; assumption|]. split; [assumption|].
  split; [lia|]. split; [apply Hd', Hdir|assumption].
Qed.

Lemma well_formed_add_rattles (s : Snake.t) : well_formed s -> well_formed (add_rattles s).
Proof.
  intros (Hsound & [Hr0 Hre] & Hrest).
  split; [apply sound_add_rattles, Hsound|]. split; [|exact Hrest].
  unfold paired, add_rattles. cbn. split; [lia|].
  rewrite Z.even_add, Hre. reflexivity.
Qed.

Lemma well_formed_middle (s : Snake.t) :
  well_formed s -> 3 < len (Snake.body s) ->
  well_formed
    (lose_length (Snake.set_body (delete (middle_index (Snake.body s)) (Snake.body s)) s)).
Proof.
  intros (Hsound & Hpaired & Hmax & Hlen & Hdir & Hint) Hlong.
  split; [apply sound_middle; assumption|].
  unfold lose_length. cbn.
  split; [exact Hpaired|]. split; [assumption|]. split; [lia|]. split; assumption.
Qed.

(** X11.  An update of the plugin never raises when every snake is sound,
    and leaves every snake sound.  It also keeps every snake well formed:
    sound, with rattles even and not negative, [length] at most
    [max_length = 15], a unit direction and the move interval of the
    constructor. *)
Theorem plugin_update_sound (dt : Q) (p : SnakePlugin.t) (e : Env) :
  Forall sound (SnakePlugin.snakes p) ->
  exists p' e',
    SnakePlugin_update dt (p, e) = Ret tt (p', e') /\
    Forall sound (SnakePlugin.snakes p') /\
    (Forall well_formed (SnakePlugin.snakes p) ->
     Forall well_formed (SnakePlugin.snakes p')).
Proof.
  intros Hsound.
  destruct (SnakePlugin_update_keeps sound) with (dt := dt) (s := (p, e))
    as ([] & [p' e'] & Hrun & Hs').
  - intros dt' s e0 Hs. destruct (Snake_update_sound dt' s e0 Hs) as (s' & e' & ? & ? & _).
    eauto.
  - apply sound_add_rattles.
  - apply sound_middle.
  - intros s Hh. apply hatchling_well_formed, Hh.
  - exact Hsound.
  - exists p', e'. split; [exact Hrun|]. split; [exact Hs'|].
    intros Hwf.
    destruct (SnakePlugin_update_keeps well_formed) with (dt := dt) (s := (p, e))
      as ([] & st2 & Hrun2 & Hwf').
    + apply Snake_update_well_formed.
    + apply well_formed_add_rattles.
    + apply well_formed_middle.
    + apply hatchling_well_formed.
    + exact Hwf.
    + rewrite Hrun in Hrun2. injection Hrun2 as <-. exact Hwf'.
Qed.

(** X12.  An update of the plugin, however it ends, removes no snake and
    adds at most one; the population stays as it is when the plugin is
    inactive, when the spawn timer has not run out, and at the cap. *)
Theorem update_population (dt : Q) (p : SnakePlugin.t) (e : Env) :
  let p' := (final_state (SnakePlugin_update dt (p, e))).1 in
  (length (SnakePlugin.snakes p) <= length (SnakePlugin.snakes p')
   <= Datatypes.S (length (SnakePlugin.snakes p)))%nat /\
  (SnakePlugin.active p = false \/
   Qle_bool (SnakePlugin.spawn_timer p - dt) 0 = false \/
   SnakePlugin.max_snakes p <= len (SnakePlugin.snakes p) ->
   length (SnakePlugin.snakes p') = length (SnakePlugin.snakes p)).
Proof.
  cbn zeta.
  remember (SnakePlugin_update dt (p, e)) as o eqn:Ho.
  unfold SnakePlugin_update, bind at 1 in Ho. cbn [get fst] in Ho.
  destruct (SnakePlugin.active p) eqn:Hact; cbn [negb] in Ho.
  2:{ subst o. cbn. split; [lia|reflexivity]. }
  unfold bind at 1 in Ho.
  set (m1 := foreach _ _) in Ho.
  pose proof (in_snakes_final m1 p e) as Hfin1.
  assert (Hlen1 : length (final_state (m1 (SnakePlugin.snakes p, e))).1
                  = length (SnakePlugin.snakes p)).
  { apply (preserves_foreach (population (length (SnakePlugin.snakes p))));
      [|reflexivity].
    intros i. apply in_snake_population. }
  destruct (in_snakes m1 (p, e)) as [[] st1|ex st1]; cbn [final_state] in Hfin1;
    subst st1.
  2:{ subst o. cbn. rewrite Hlen1. split; [lia|reflexivity]. }
  set (l1 := (final_state (m1 (SnakePlugin.snakes p, e))).1) in *.
  set (e1 := (final_state (m1 (SnakePlugin.snakes p, e))).2) in *.
  unfold bind at 1 in Ho.
  destruct (check_snake_collisions_run (SnakePlugin.set_snakes l1 p) e1)
    as (log & l2 & e2 & Hrun2 & Hall & _ & _).
  rewrite Hrun2 in Ho.
  assert (Hlen2 : length l2 = length (SnakePlugin.snakes p)).
  { rewrite <- Hlen1. symmetry. eapply Forall2_length, Hall. }
  unfold bind at 1 in Ho. cbn [on_plugin modify fst snd] in Ho.
  unfold bind at 1 in Ho. cbn [get fst] in Ho.
  cbn [SnakePlugin.spawn_timer SnakePlugin.set_spawn_timer SnakePlugin.set_snakes] in Ho.
  destruct (Qle_bool (SnakePlugin.spawn_timer p - dt) 0) eqn:Hdue.
  2:{ subst o. cbn. rewrite Hlen2. split; [lia|reflexivity]. }
  unfold bind at 1 in Ho. cbn [on_plugin modify fst snd] in Ho.
  unfold bind at 1 in Ho.
  match type of Ho with context [try_spawn_snake (?p3, ?e3)] =>
    destruct (try_spawn_snake_outcome p3 e3) as (b & p' & e' & Hrun3 & _ & _ & Hf & Hs)
  end.
  rewrite Hrun3 in Ho. subst o. cbn [final_state fst ret]. destruct b.
  - destruct (Hs eq_refl) as (Hlt & snake & -> & _).
    cbn [SnakePlugin.snakes SnakePlugin.set_snakes SnakePlugin.set_spawn_timer
         SnakePlugin.max_snakes] in Hlt |- *.
    rewrite length_app, Hlen2. cbn [length]. split; [lia|].
    intros [Hoff|[Hidle|Hcap]]; [discriminate|discriminate|].
    unfold len in *. lia.
  - rewrite (Hf eq_refl). cbn. rewrite Hlen2. split; [lia|reflexivity].
Qed.

Lemma returns_final {S A} (I : S -> Prop) (m : M S A) (s : S) (a : A) (s' : S) :
  preserves I m -> I s -> m s = Ret a s' -> I s'.
Proof. intros Hm Hs Hrun. specialize (Hm s Hs). rewrite Hrun in Hm. exact Hm. Qed.

(** X13.  A plugin as the constructor builds it runs any number of updates
    without raising; afterwards it holds at most five snakes, all of them
    well formed. *)
Theorem fresh_plugin_runs (active : bool) (dts : list Q) (e : Env) :
  exists p' e',
    foreach dts SnakePlugin_update (SnakePlugin_init active, e) = Ret tt (p', e') /\
    Forall well_formed (SnakePlugin.snakes p') /\
    len (SnakePlugin.snakes p') <= 5.
Proof.
  destruct (returns_foreach
              (fun st => Forall well_formed (SnakePlugin.snakes st.1) /\ capped st)
              dts SnakePlugin_update)
    with (s := (SnakePlugin_init active, e)) as ([] & [p' e'] & Hrun & Hwf & Hcap & _).
  - intros dt _ st [Hwf Hcap].
    destruct (SnakePlugin_update_keeps well_formed) with (dt := dt) (s := st)
      as ([] & st' & Hrun & Hwf');
      [apply Snake_update_well_formed|apply well_formed_add_rattles
      |apply well_formed_middle|apply hatchling_well_formed|exact Hwf|].
    exists tt, st'. split; [exact Hrun|]. split; [exact Hwf'|].
    apply (returns_final capped (SnakePlugin_update dt) st tt st');
      [apply SnakePlugin_update_capped|exact Hcap|exact Hrun].
  - split; [constructor|]. split; [unfold len; cbn; lia|reflexivity].
  - exists p', e'. auto.
Qed.



End Plugin_more.

Section Render_more.
Context `{Curses}.



(** What one iteration of the loop of [render] does to the screen: nothing,
    or one [addstr] that draws the segment, whose exception is dropped. *)
Lemma render_segment_draws (s : Snake.t) (v : View) (i : nat) (segment : Position)
    (scr : screen) :
  Snake.body s !! i = Some segment ->
  render_segment s v i segment scr = Ret tt scr \/
  exists y x text attr,
    draws s v y x text attr /\
    render_segment s v i segment scr = Ret tt (final_state (addstr y x text attr scr)).
Proof.
  intros Hi. unfold render_segment. destruct segment as [x y].
  destruct (Z.leb_spec 0 (x + max_x v / 2)); [|left; reflexivity].
  destruct (Z.ltb_spec (x + max_x v / 2) (max_x v)); [|left; reflexivity].
  destruct (Z.leb_spec 0 (y + max_y v / 2)); [|left; reflexivity].
  destruct (Z.ltb_spec (y + max_y v / 2) (max_y v)); [|left; reflexivity].
  cbn [andb]. right.
  assert (Hattr : (if Snake.length s >=? Snake.max_length s then A_BOLD else 0)
                  = (if Snake.max_length s <=? Snake.length s then A_BOLD else 0)).
  { rewrite Z.geb_leb. reflexivity. }
  rewrite Hattr.
  destruct (Nat.eqb_spec i 0) as [->|Hne].
  - eexists _, _, _, _. split; [|reflexivity].
    exists 0%nat, (x, y), (snake_color v). cbn [fst snd].
    repeat split; try assumption; try lia. left. auto.
  - destruct (Z.geb_spec (Z.of_nat i) (Snake.length s)) as [Hge|Hlt].
    + eexists _, _, _, _. split; [|reflexivity].
      exists i, (x, y), (color_pair 1). cbn [fst snd].
      repeat split; try assumption; try lia. right. left. repeat split; auto; lia.
    + eexists _, _, _, _. split; [|reflexivity].
      exists i, (x, y), (snake_color v). cbn [fst snd].
      repeat split; try assumption; try lia. right. right. auto.
Qed.

Lemma enumerate_from_lookup {A} (k : nat) (l : list A) (i : nat) (a : A) :
  (i, a) ∈ enumerate_from k l -> exists j, i = (k + j)%nat /\ l !! j = Some a.
Proof.
  revert k. induction l as [|b l IH]; intros k Hin; cbn in Hin.
  - apply elem_of_nil in Hin. contradiction.
  - apply elem_of_cons in Hin as [[= -> ->]|Hin].
    + exists 0%nat. split; [lia|reflexivity].
    + destruct (IH _ Hin) as (j & -> & Hj). exists (Datatypes.S j). split; [lia|exact Hj].
Qed.


(** X16.  Every write of [Snake.render] draws a segment of the snake: it
    goes to the screen cell of some segment, inside the view, with the glyph
    and style of that segment.  So whatever the screen keeps under such
    writes, it keeps under [render]. *)
Theorem render_draws_segments (s : Snake.t) (v : View) (P : screen -> Prop) :
  (forall y x text attr scr,
     draws s v y x text attr -> P scr -> P (final_state (addstr y x text attr scr))) ->
  forall scr, P scr -> P (final_state (Snake_render s v scr)).
Proof.
  intros Hdraw. change (preserves P (Snake_render s v)).
  unfold Snake_render.
  assert (Hgen : forall l,
             (forall i segment, (i, segment) ∈ l -> Snake.body s !! i = Some segment) ->
             preserves P (foreach l (fun '(i, segment) => render_segment s v i segment))).
  { induction l as [|[i segment] l IH]; intros Hl; cbn [foreach].
    - apply preserves_ret.
    - apply preserves_bind.
      + intros scr Hscr.
        destruct (render_segment_draws s v i segment scr (Hl i segment ltac:(left)))
          as [->|(y & x & text & attr & Hd & ->)]; [exact Hscr|].
        apply (Hdraw y x text attr scr Hd Hscr).
      + intros _. apply IH. intros j seg Hin. apply Hl. right. exact Hin. }
  apply Hgen. intros i segment Hin.
  destruct (enumerate_from_lookup 0 _ i segment Hin) as (j & -> & Hj). exact Hj.
Qed.

End Render_more.

(** X17.  On the recording screen the calls [Snake.render] makes do not
    depend on which of them raise: a write that fails does not keep the
    later segments from being drawn. *)
Theorem render_ignores_failures (fails1 fails2 : Z -> Z -> bool) (s : Snake.t)
    (v : View) (log : list (Z * Z * string * Z)) :
  final_state (Snake_render (H := recorder fails1) s v log) =
  final_state (Snake_render (H := recorder fails2) s v log).
Proof.
  unfold Snake_render. generalize 0%nat. revert log.
  induction (Snake.body s) as [|segment rest IH]; intros log k; [reflexivity|].
  cbn [enumerate_from foreach]. unfold bind.
  assert (Hseg : exists log',
             render_segment (H := recorder fails1) s v k segment log = Ret tt log' /\
             render_segment (H := recorder fails2) s v k segment log = Ret tt log').
  { unfold render_segment. destruct segment as [x y].
    destruct (_ && _); [|exists log; split; reflexivity].
    destruct (if (k =? 0)%nat then _ else _) as [char color].
    unfold try_pass. cbn [addstr recorder].
    destruct (fails1 _ _), (fails2 _ _); eexists; split; reflexivity. }
  destruct Hseg as (log' & -> & ->). apply IH.
Qed.

(** ** The further properties on concrete snakes *)

Module Examples2.
Import Fixtures Fixtures2.

Lemma update_headless_witness :
  Qle_bool (Snake.time_to_move headless - (1 # 2)) 0 = true /\
  Snake.body headless = [] /\
  exists s' e',
    Snake_update (1 # 2) (headless, calm_env) = Raise IndexError (s', e') /\
    Snake.body s' = [] /\ Snake.length s' = 3 /\ game e' = game calm_env.
Proof.
  split; [reflexivity|]. split; [reflexivity|].
  destruct (update_headless (1 # 2) headless calm_env eq_refl eq_refl)
    as (s' & e' & Hrun & Hb & Hl & _ & _ & Hg).
  exists s', e'. auto.
Defined.

Lemma update_starved_witness :
  Qle_bool (Snake.time_to_move starved - (1 # 2)) 0 = true /\
  Snake.body starved <> [] /\
  let o := Snake_update (1 # 2) (starved, calm_env) in
  Snake.body (final_state o).1 = [] /\
  exists e', o = Raise IndexError ((final_state o).1, e').
Proof.
  split; [reflexivity|]. split; [discriminate|].
  destruct (update_starved (1 # 2) starved calm_env eq_refl) as (_ & Hneg & Hpre);
    [discriminate|].
  cbn zeta. apply Hneg, Hpre. vm_compute. reflexivity.
Defined.

Lemma update_keeps_sound_witness :
  sound due_snake /\
  exists s' e',
    Snake_update (1 # 2) (due_snake, calm_env) = Ret tt (s', e') /\ sound s'.
Proof.
  assert (Hsound : sound due_snake).
  { split; [discriminate|vm_compute; discriminate]. }
  split; [exact Hsound|].
  destruct (update_keeps_sound (1 # 2) due_snake calm_env Hsound)
    as (s' & e' & Hrun & Hs' & _).
  exists s', e'. auto.
Defined.

Lemma update_step_shape_witness :
  Qle_bool (Snake.time_to_move due_snake - (1 # 2)) 0 = true /\
  sound due_snake /\
  Snake.direction due_snake ∈ directions /\
  py_head (Snake.body due_snake) = Some (5, 5) /\
  exists s' e' nh,
    Snake_update (1 # 2) (due_snake, calm_env) = Ret tt (s', e') /\
    Z.abs (nh.1 - 5) + Z.abs (nh.2 - 5) = 1 /\
    Snake.body s' =
      nh :: take (Z.to_nat (Snake.length s' + Snake.rattles s' - 1))
                 (Snake.body due_snake).
Proof.
  assert (Hsound : sound due_snake).
  { split; [discriminate|vm_compute; discriminate]. }
  assert (Hdir : Snake.direction due_snake ∈ directions) by (vm_compute; left).
  split; [reflexivity|]. split; [exact Hsound|]. split; [exact Hdir|].
  split; [reflexivity|].
  destruct (update_step_shape (1 # 2) due_snake calm_env (5, 5) eq_refl Hsound Hdir
              eq_refl) as (s' & e' & nh & Hrun & _ & Hstep & Hbody & _).
  exists s', e', nh. auto.
Defined.

Lemma update_egg_effect_witness :
  Qle_bool (Snake.time_to_move capped_snake - (1 # 2)) 0 = true /\
  py_head (Snake.body capped_snake) = Some (48, 1) /\
  let st' := final_state (Snake_update (1 # 2) (capped_snake, calm_env)) in
  game st'.2 = claim_egg (48, 0) (game calm_env) /\ Snake.length st'.1 = 15.
Proof.
  split; [reflexivity|]. split; [reflexivity|].
  pose proof (update_egg_effect (1 # 2) capped_snake calm_env (48, 1) eq_refl eq_refl)
    as Heffect.
  cbn zeta in Heffect |- *.
  assert (Hdir : Snake.direction
                   (final_state (Snake_update (1 # 2) (capped_snake, calm_env))).1
                 = (0, -1)) by (vm_compute; reflexivity).
  rewrite Hdir in Heffect.
  change (is_egg (world_cell (game calm_env) (step_from (48, 1) (0, -1)))) with true
    in Heffect.
  exact Heffect.
Defined.

Lemma collisions_without_overlap_witness :
  check_snake_collisions (plugin_of true [biter; bystander], calm_env)
    = Ret [] (plugin_of true [biter; bystander], calm_env).
Proof.
  apply (collisions_without_overlap (plugin_of true [biter; bystander]) calm_env).
  intros i j A B hA Hij Hi Hj Hh.
  destruct i as [|[|i]], j as [|[|j]]; try discriminate; try (exfalso; apply Hij; reflexivity);
    injection Hi as <-; injection Hj as <-; injection Hh as <-;
    apply (bool_decide_unpack _); vm_compute; exact I.
Defined.

Lemma plugin_update_sound_witness :
  Forall sound (SnakePlugin.snakes duel) /\
  exists p' e',
    SnakePlugin_update (1 # 2) (duel, plant_env) = Ret tt (p', e') /\
    Forall sound (SnakePlugin.snakes p').
Proof.
  assert (Hsound : Forall sound (SnakePlugin.snakes duel)).
  { repeat constructor; try discriminate; vm_compute; discriminate. }
  split; [exact Hsound|].
  destruct (plugin_update_sound (1 # 2) duel plant_env Hsound)
    as (p' & e' & Hrun & Hs' & _).
  exists p', e'. auto.
Defined.


(** A screen on which every write raises still ends up with one call per
    visible segment of the corner snake, all inside the 80 x 24 view. *)
Lemma render_draws_segments_witness :
  let in_view (log : list (Z * Z * string * Z)) :=
    Forall (fun call => 0 <= call.1.1.2 < 80 /\ 0 <= call.1.1.1 < 24) log in
  in_view [] /\
  in_view (final_state (Snake_render (H := recorder (fun _ _ => true))
                          corner_snake view80 [])).
Proof.
  cbn zeta. split; [constructor|].
  apply (render_draws_segments (H := recorder (fun _ _ => true)) corner_snake view80
           (Forall (fun call => 0 <= call.1.1.2 < 80 /\ 0 <= call.1.1.1 < 24)));
    [|constructor].
  intros y x text attr scr (i & segment & color & _ & _ & _ & Hx & Hy & _) Hscr.
  cbn [addstr recorder final_state]. apply Forall_app. split; [exact Hscr|].
  repeat constructor; cbn [fst snd]; cbn [max_x max_y view80] in Hx, Hy; lia.
Defined.

(** The corner snake on an honest screen: the head as [S] at the top-left
    cell, the off-screen segment skipped, the third segment, at index
    [length = 2], as a rattle. *)
Example corner_snake_render :
  Snake_render (H := recorder (fun _ _ => false)) corner_snake view80 []
    = Ret tt [(0, 0, "S"%string, 512); (1, 0, "."%string, 256)].
Proof. vm_compute. reflexivity. Qed.

(** Two updates of a plugin that has just been built, on a tape that finds
    a plant at once: the first spawns a snake, the second moves it. *)
Example fresh_plugin_spawns :
  exists p' e',
    foreach [1 # 2; 1 # 2]%Q SnakePlugin_update (SnakePlugin_init true, plant_env)
      = Ret tt (p', e') /\
    (Snake.body <$> SnakePlugin.snakes p') = [[(0, -3); (0, -4)]].
Proof. vm_compute. eexists _, _. split; reflexivity. Qed.

End Examples2.
